(** * VCTCareer onboarding: milestone stepper and intake form

    A shallow embedding of the two stateful React components of the
    onboarding surface,

      - [src/pages/landing/landing.jsx]               (module [Landing])
      - [components/landing/modal.jsx]                (module [LandingModal])

    React state hooks become record fields, event handlers become functions
    from the state of the render that created them to a new state together
    with the list of side effects they perform, in program order. *)

From Stdlib Require Import ZArith QArith Qround Bool List String Ascii Lia.
Import ListNotations.
Open Scope string_scope.
Open Scope list_scope.
Open Scope Z_scope.

(** ** JavaScript values used by the components *)
Module Js.

(** A JS number: an IEEE double is either finite, an infinity or NaN.  The
    components only ever compare a number with zero, so a finite double
    is represented by the rational it denotes. *)
Inductive number : Type :=
| Finite (q : Q)
| PosInfinity
| NegInfinity
| NaN.

(** [x > 0].  Every comparison with NaN is false. *)
Definition gt_zero (x : number) : bool :=
  match x with
  | Finite q => negb (Qle_bool q 0)
  | PosInfinity => true
  | NegInfinity => false
  | NaN => false
  end.

Definition is_zero (x : number) : bool :=
  match x with
  | Finite q => Qeq_bool q 0
  | _ => false
  end.

Definition of_Z (z : Z) : number := Finite (inject_Z z).

(** Values produced by [JSON.parse] / [res.json()], and [null]. *)
#[local] Unset Elimination Schemes.
Inductive json : Type :=
| JNull
| JBool (b : bool)
| JNum (n : number)
| JStr (s : string)
| JArr (items : list json)
| JObj (fields : list (string * json)).
#[local] Set Elimination Schemes.

(** Truthiness of a string: only the empty string is falsy. *)
Definition truthy_string (s : string) : bool :=
  match s with
  | EmptyString => false
  | String _ _ => true
  end.

(** Truthiness, as used by [if (x)], [x && y] and [!x]. *)
Definition truthy (v : json) : bool :=
  match v with
  | JNull => false
  | JBool b => b
  | JNum n => match n with
              | NaN => false
              | _ => negb (is_zero n)
              end
  | JStr s => truthy_string s
  | JArr _ => true
  | JObj _ => true
  end.

(** [xs.indexOf(x)]: position of the first element strictly equal to
    [x], or [-1]. *)
Fixpoint indexOf_from (i : Z) (x : string) (xs : list string) : Z :=
  match xs with
  | [] => -1
  | y :: ys => if String.eqb y x then i else indexOf_from (i + 1) x ys
  end.

Definition indexOf (xs : list string) (x : string) : Z := indexOf_from 0 x xs.

End Js.

(** ** The milestone stepper: [pages/landing/landing.jsx] *)
Module Landing.

Definition milestones : list string :=
  [ "Hit Radiant";
    "Amateur Team";
    "Open Qualifiers";
    "Challengers League (Tier 2)";
    "VCT Partner League (Tier 1)";
    "International Events (Masters/Champions)" ].

Definition SCROLL_THROTTLE_MS : Z := 250.

(** [milestones.length] *)
Definition milestones_length : Z := Z.of_nat (List.length milestones).

(** The part of a wheel event the handler reads. *)
Record WheelEvent : Type := mkWheel { deltaY : Js.number }.

(** One delivery of a wheel event: the event and the value [Date.now()]
    returns while the handler runs. *)
Record Delivery : Type := mkDelivery { now : Z; event : WheelEvent }.

(** The hooks of the component ([activeIdx], [canStart], the ref
    [lastScroll]) and the one piece of global page state the handler
    writes, [document.body.style.overflow]. *)
Record State : Type := mkState {
  activeIdx : Z;
  canStart : bool;
  lastScroll : Z;
  bodyOverflowHidden : bool
}.

(** Side effects of the wheel handler on the page and on the event. *)
Inductive Effect : Type :=
| ScrollToTop        (* window.scrollTo({ top: 0, left: 0, behavior: 'auto' }) *)
| PreventDefault.    (* e.preventDefault() *)

(** The updater passed to [setActiveIdx]. *)
Definition nextIdx (e : WheelEvent) (idx : Z) : Z :=
  if Js.gt_zero (deltaY e) then
    if idx <? milestones_length - 1 then idx + 1 else idx
  else
    if idx >? 0 then idx - 1 else idx.

(** [handleWheel]: the throttle guard returns before anything else is
    done; otherwise the timestamp is recorded, the page scroll is reset,
    the event is cancelled, the index is stepped and the body is locked. *)
Definition handleWheel (d : Delivery) (st : State) : State * list Effect :=
  if now d - lastScroll st <? SCROLL_THROTTLE_MS then (st, [])
  else
    ({| activeIdx := nextIdx (event d) (activeIdx st);
        canStart := canStart st;
        lastScroll := now d;
        bodyOverflowHidden := true |},
     [ScrollToTop; PreventDefault]).

(** The event is throttled. *)
Definition throttled (d : Delivery) (st : State) : bool :=
  now d - lastScroll st <? SCROLL_THROTTLE_MS.

(** Body of the second [useEffect]:
    [setCanStart(activeIdx === milestones.length - 1)]. *)
Definition syncCanStart (st : State) : State :=
  {| activeIdx := activeIdx st;
     canStart := activeIdx st =? milestones_length - 1;
     lastScroll := lastScroll st;
     bodyOverflowHidden := bodyOverflowHidden st |}.

(** An effect with dependency list [[activeIdx]] runs after a render only
    when [activeIdx] differs from its value at the previous render. *)
Definition flushEffects (prev st : State) : State :=
  if activeIdx st =? activeIdx prev then st else syncCanStart st.

(** State of the hooks at the first render, before effects. *)
Definition firstRender : State :=
  {| activeIdx := 0; canStart := false; lastScroll := 0;
     bodyOverflowHidden := false |}.

(** After mounting every effect has run once. *)
Definition mounted : State := syncCanStart firstRender.

(** One wheel event run to completion: the handler, the re-render, then
    the effects of that render.  Between the handler and the effects React
    commits the render of [fst (handleWheel d st)]; see [rendered]. *)
Definition step (st : State) (d : Delivery) : State * list Effect :=
  let (st', effs) := handleWheel d st in (flushEffects st st', effs).

Fixpoint run (st : State) (ds : list Delivery) : State :=
  match ds with
  | [] => st
  | d :: ds' => run (fst (step st d)) ds'
  end.

(** The states in which the effects of the last render have run: the
    mounted component, and what [step] leaves after each event. *)
Inductive reachable : State -> Prop :=
| reach_mounted : reachable mounted
| reach_step : forall st d, reachable st -> reachable (fst (step st d)).

(** The value the "Get Started" button's [disabled] attribute gets. *)
Definition startDisabled (st : State) : bool := negb (canStart st).

Definition forward : WheelEvent := mkWheel (Js.of_Z 100).
Definition backward : WheelEvent := mkWheel (Js.of_Z (-100)).
Definition zero_delta : WheelEvent := mkWheel (Js.of_Z 0).
Definition nan_delta : WheelEvent := mkWheel Js.NaN.

(** [n] forward events, one second apart. *)
Definition spaced_forwards (n : nat) : list Delivery :=
  List.map (fun k => mkDelivery (1000 * Z.of_nat (S k)) forward) (List.seq 0 n).

(** What the specification asks of a throttled event: "state is unchanged
    and the input is still reported as consumed" -- the scroll offset is
    reset and the event is marked handled, exactly as for an accepted
    event. *)
Definition throttled_event_consumed (d : Delivery) (st : State) : Prop :=
  throttled d st = true ->
  fst (step st d) = st /\ snd (step st d) = [ScrollToTop; PreventDefault].

(** *** The stepper along a sequence of events *)

(** The effects performed along a sequence of deliveries, in order. *)
Fixpoint effectsOf (st : State) (ds : list Delivery) : list Effect :=
  match ds with
  | [] => []
  | d :: ds' => snd (step st d) ++ effectsOf (fst (step st d)) ds'
  end.

(** Number of deliveries that pass the throttle guard and take the forward
    branch of the updater. *)
Fixpoint forwardSteps (st : State) (ds : list Delivery) : nat :=
  match ds with
  | [] => O
  | d :: ds' =>
      ((if negb (throttled d st) && Js.gt_zero (deltaY (event d))
        then 1 else 0) + forwardSteps (fst (step st d)) ds')%nat
  end.

(** Every delivery comes at least [SCROLL_THROTTLE_MS] after the previous
    one, the first at least that long after [last]. *)
Fixpoint spaced (last : Z) (ds : list Delivery) : Prop :=
  match ds with
  | [] => True
  | d :: ds' => last + SCROLL_THROTTLE_MS <= now d /\ spaced (now d) ds'
  end.

(** The timeline and the labels test [activeIdx === idx] for every index
    of [milestones]: the milestone drawn as active. *)
Definition highlighted (st : State) : list bool :=
  List.map (fun idx => activeIdx st =? Z.of_nat idx)
           (List.seq 0 (List.length milestones)).

(** The states React commits a render of: those of [reachable], and, after
    each handler, the state the handler leaves, whose [canStart] effect has
    not run yet. *)
Inductive rendered : State -> Prop :=
| rendered_settled : forall st, reachable st -> rendered st
| rendered_after_handler :
    forall st d, reachable st -> rendered (fst (handleWheel d st)).

(** What the specification asks of the flag in a state: it is true if and
    only if the index is that of the last milestone. *)
Definition flag_iff_last (st : State) : Prop :=
  canStart st = true <-> activeIdx st = milestones_length - 1.

End Landing.

(** ** The intake form: [components/landing/modal.jsx] *)
Module LandingModal.

Definition rankOptions : list string :=
  [ "Iron"; "Bronze"; "Silver"; "Gold"; "Platinum"; "Diamond"; "Ascendant";
    "Immortal"; "Radiant" ].

Definition experienceOptions : list string :=
  [ "Tier 1"; "Tier 2"; "Tier 3"; "None" ].

Definition divisionOptions : list string := [ "1"; "2"; "3" ].

(** The ten [useState] hooks of [LandingModal].  [apiResult] is whatever
    [res.json()] produced, or [null]; [error] is a string or [null]. *)
Record Hooks : Type := mkHooks {
  age : string;
  rank : string;
  division : string;
  experience : string;
  submitted : bool;
  apiResult : Js.json;
  loading : bool;
  error : option string;
  showToast : bool;
  toastMsg : string
}.

(** The object handed to [JSON.stringify] as the request body.  [age_of]
    is the string [Number] is applied to; [division_field] is [None] for
    [null]. *)
Record CareerRequest : Type := mkRequest {
  age_of : string;
  current_rank : string;
  past_experience : string;
  division_field : option string
}.

(** What the handlers do to the world outside the hooks. *)
Inductive Effect : Type :=
| PreventDefault                                    (* e.preventDefault() *)
| ConsoleLog (msg : string)                         (* console.log(msg) *)
| Fetch (url : string) (body : CareerRequest)       (* fetch(url, { method: 'POST', body }) *)
| LocalStorageSetItem (key : string) (value : Js.json)
                                                    (* localStorage.setItem(key, JSON.stringify(value)),
                                                       taken to succeed *)
| SetLocationHref (url : string).                   (* window.location.href = url *)

(** *** Handlers as state-and-effect computations

    A handler updates hooks through their setters and performs effects;
    [Act A] threads the hooks and logs the effects in program order. *)
Definition Act (A : Type) : Type := Hooks -> A * Hooks * list Effect.

Definition ret {A : Type} (a : A) : Act A := fun h => (a, h, []).

Definition bind {A B : Type} (m : Act A) (k : A -> Act B) : Act B :=
  fun h =>
    let '(a, h1, e1) := m h in
    let '(b, h2, e2) := k a h1 in
    (b, h2, e1 ++ e2).

Definition perform (e : Effect) : Act unit := fun h => (tt, h, [e]).

Definition update (f : Hooks -> Hooks) : Act unit := fun h => (tt, f h, []).

Notation "m1 ;; m2" := (bind m1 (fun _ => m2))
  (at level 61, right associativity).

Definition setAge (v : string) : Act unit :=
  update (fun h => mkHooks v (rank h) (division h) (experience h) (submitted h)
                     (apiResult h) (loading h) (error h) (showToast h) (toastMsg h)).

Definition setRank (v : string) : Act unit :=
  update (fun h => mkHooks (age h) v (division h) (experience h) (submitted h)
                     (apiResult h) (loading h) (error h) (showToast h) (toastMsg h)).

Definition setDivision (v : string) : Act unit :=
  update (fun h => mkHooks (age h) (rank h) v (experience h) (submitted h)
                     (apiResult h) (loading h) (error h) (showToast h) (toastMsg h)).

Definition setExperience (v : string) : Act unit :=
  update (fun h => mkHooks (age h) (rank h) (division h) v (submitted h)
                     (apiResult h) (loading h) (error h) (showToast h) (toastMsg h)).

Definition setSubmitted (v : bool) : Act unit :=
  update (fun h => mkHooks (age h) (rank h) (division h) (experience h) v
                     (apiResult h) (loading h) (error h) (showToast h) (toastMsg h)).

Definition setApiResult (v : Js.json) : Act unit :=
  update (fun h => mkHooks (age h) (rank h) (division h) (experience h) (submitted h)
                     v (loading h) (error h) (showToast h) (toastMsg h)).

Definition setLoading (v : bool) : Act unit :=
  update (fun h => mkHooks (age h) (rank h) (division h) (experience h) (submitted h)
                     (apiResult h) v (error h) (showToast h) (toastMsg h)).

Definition setError (v : option string) : Act unit :=
  update (fun h => mkHooks (age h) (rank h) (division h) (experience h) (submitted h)
                     (apiResult h) (loading h) v (showToast h) (toastMsg h)).

Definition setShowToast (v : bool) : Act unit :=
  update (fun h => mkHooks (age h) (rank h) (division h) (experience h) (submitted h)
                     (apiResult h) (loading h) (error h) v (toastMsg h)).

Definition STORAGE_KEY : string := "valorantCareer".
Definition CAREER_URL : string := "/career".
Definition CREATE_CAREER_URL : string := "http://127.0.0.1:8080/createCareer".
Definition FAILURE_MESSAGE : string := "Failed to create career. Please try again.".

(** [handleToastConfirm].  [c] is the render the handler closes over. *)
Definition handleToastConfirm (c : Hooks) : Act unit :=
  (if Js.truthy (apiResult c) then
     perform (LocalStorageSetItem STORAGE_KEY (apiResult c)) ;;
     perform (SetLocationHref CAREER_URL)
   else ret tt) ;;
  setShowToast false.

(** The body the request carries, built from the closed-over hooks. *)
Definition requestBody (c : Hooks) : CareerRequest :=
  {| age_of := age c;
     current_rank := rank c;
     past_experience := experience c;
     division_field := if String.eqb (rank c) "Radiant" then None
                       else Some (division c) |}.

(** [handleSubmit] up to its first [await]: everything that happens
    synchronously inside the submit event. *)
Definition handleSubmit_begin (c : Hooks) : Act unit :=
  perform PreventDefault ;;
  setLoading true ;;
  setError None ;;
  setApiResult Js.JNull ;;
  perform (ConsoleLog "Submitting career creation:") ;;
  perform (Fetch CREATE_CAREER_URL (requestBody c)).

(** How the awaited request ends: [fetch] rejects, or a response arrives
    with its [ok] flag and a body that [res.json()] parses or rejects. *)
Inductive FetchOutcome : Type :=
| NetworkError
| Responded (ok : bool) (body : option Js.json).

(** [handleSubmit] after the [await]s: the rest of the [try], the
    [catch] and the [finally]. *)
Definition handleSubmit_settle (o : FetchOutcome) : Act unit :=
  match o with
  | Responded true (Some data) =>
      setApiResult data ;;
      setSubmitted true ;;
      setShowToast true
  | _ => setError (Some FAILURE_MESSAGE)
  end ;;
  setLoading false.

(** [handleSubmit] from start to end, when nothing else happens while the
    request is awaited. *)
Definition handleSubmit (c : Hooks) (o : FetchOutcome) : Act unit :=
  handleSubmit_begin c ;;
  handleSubmit_settle o.

(** *** What a render shows *)

(** The four alternatives of the conditional in the modal body. *)
Inductive Panel : Type :=
| CareerCreated     (* submitted && apiResult && !showToast *)
| ErrorMessage      (* submitted && !apiResult && !loading  *)
| Creating          (* loading *)
| Form.

Definition Panel_eqb (a b : Panel) : bool :=
  match a, b with
  | CareerCreated, CareerCreated => true
  | ErrorMessage, ErrorMessage => true
  | Creating, Creating => true
  | Form, Form => true
  | _, _ => false
  end.

Definition panel (h : Hooks) : Panel :=
  if submitted h && Js.truthy (apiResult h) && negb (showToast h) then CareerCreated
  else if submitted h && negb (Js.truthy (apiResult h)) && negb (loading h) then ErrorMessage
  else if loading h then Creating
  else Form.

(** [showToast && apiResult]: the "Placement Complete!" overlay with its
    OK button. *)
Definition toastShown (h : Hooks) : bool :=
  showToast h && Js.truthy (apiResult h).

(** The text the error alternative renders: [error || 'Unknown error.'].
    No other alternative reads [error]. *)
Definition errorText (h : Hooks) : option string :=
  match panel h with
  | ErrorMessage =>
      match error h with
      | Some msg => if Js.truthy_string msg then Some msg else Some "Unknown error."
      | None => Some "Unknown error."
      end
  | _ => None
  end.

(** [rank && rank !== 'Radiant']: the division select is rendered. *)
Definition divisionRendered (h : Hooks) : bool :=
  Js.truthy_string (rank h) && negb (String.eqb (rank h) "Radiant").

(** [rankOptions.indexOf(rank) < 7 && rank]: the experience select is
    disabled and shows 'None'. *)
Definition experienceDisabled (h : Hooks) : bool :=
  (Js.indexOf rankOptions (rank h) <? 7) && Js.truthy_string (rank h).

(** The [value] of the experience select. *)
Definition experienceShown (h : Hooks) : string :=
  if experienceDisabled h then "None" else experience h.

(** [disabled] of the submit button: [rank && rank !== 'Radiant' && !division]. *)
Definition submitDisabled (h : Hooks) : bool :=
  Js.truthy_string (rank h) && negb (String.eqb (rank h) "Radiant")
  && negb (Js.truthy_string (division h)).


(** *** Constraint validation of the form

    The form's controls carry [required], and the age input
    [type="number" min="16" max="99"]; the browser fires the submit event
    only when every rendered, enabled control satisfies its constraints.
    For the number input these are the ones the HTML standard gives: the
    value is a valid floating-point number (an optional minus sign, digits
    and/or a fraction, an optional exponent), and the double it is rounded
    to lies between [min] and [max] on a step of 1 from [min], that is, it
    is an integer from 16 to 99. *)
Definition digit_of (c : Ascii.ascii) : option Z :=
  let n := Z.of_nat (Ascii.nat_of_ascii c) in
  if (48 <=? n) && (n <=? 57) then Some (n - 48) else None.

(** The longest prefix of decimal digits of [s]: the number they spell
    after the digits already read into [acc], how many there are, and the
    rest of the string. *)
Fixpoint takeDigits (acc : Z) (count : nat) (s : string) : Z * nat * string :=
  match s with
  | EmptyString => (acc, count, s)
  | String c s' =>
      match digit_of c with
      | Some d => takeDigits (10 * acc + d) (S count) s'
      | None => (acc, count, s)
      end
  end.

(** A parsed number: plus or minus [coefficient] times ten to the
    [scale]. *)
Record Decimal : Type := mkDecimal {
  negative : bool;
  coefficient : Z;
  scale : Z
}.

(** Nothing, or [e] or [E], an optional sign and at least one digit, up to
    the end of the string. *)
Definition parseExponent (s : string) : option Z :=
  match s with
  | EmptyString => Some 0
  | String c rest =>
      if Ascii.eqb c "e" || Ascii.eqb c "E" then
        let (sign, digits) :=
          match rest with
          | String s0 r =>
              if Ascii.eqb s0 "-" then (-1, r)
              else if Ascii.eqb s0 "+" then (1, r)
              else (1, rest)
          | EmptyString => (1, rest)
          end in
        match takeDigits 0 0 digits with
        | (e, S _, EmptyString) => Some (sign * e)
        | _ => None
        end
      else None
  end.

(** A valid floating-point number: an optional "-", then digits, or
    digits (possibly none) followed by "." and at least one digit, then an
    optional exponent. *)
Definition parseFloatingPoint (s : string) : option Decimal :=
  let (neg, body) :=
    match s with
    | String c r => if Ascii.eqb c "-" then (true, r) else (false, s)
    | EmptyString => (false, s)
    end in
  let '(whole, wholeDigits, rest) := takeDigits 0 0 body in
  match rest with
  | String c fraction =>
      if Ascii.eqb c "." then
        let '(all, fractionDigits, rest') := takeDigits whole 0 fraction in
        match fractionDigits with
        | O => None
        | S _ =>
            option_map (fun e => mkDecimal neg all (e - Z.of_nat fractionDigits))
                       (parseExponent rest')
        end
      else
        match wholeDigits with
        | O => None
        | S _ => option_map (mkDecimal neg whole) (parseExponent rest)
        end
  | EmptyString =>
      match wholeDigits with
      | O => None
      | S _ => Some (mkDecimal neg whole 0)
      end
  end.

Definition valueOf (d : Decimal) : Q :=
  let magnitude :=
    if 0 <=? scale d
    then inject_Z (coefficient d * 10 ^ scale d)
    else Qmake (coefficient d) (Z.to_pos (10 ^ (- scale d))) in
  if negative d then Qopp magnitude else magnitude.

(** Half the distance from the integer [n], as a double, to the next
    double above it, for [n] from 16 to 127. *)
Definition halfUlp (n : Z) : Q :=
  if n <? 32 then Qmake 1 (2 ^ 49)
  else if n <? 64 then Qmake 1 (2 ^ 48)
  else Qmake 1 (2 ^ 47).

(** Half the distance to the next double below: the doubles are twice as
    dense below a power of two. *)
Definition halfGapBelow (n : Z) : Q :=
  if (n =? 16) || (n =? 32) || (n =? 64)
  then Qmult (halfUlp n) (Qmake 1 2)
  else halfUlp n.

(** The integer from 16 to 99 that [v] is rounded to as a double, if it
    is rounded to one (a tie goes to the integer, whose significand is
    even). *)
Definition roundsToAge (v : Q) : option Z :=
  let n := Qfloor (Qplus v (Qmake 1 2)) in
  if (16 <=? n) && (n <=? 99)
     && Qle_bool (Qminus (inject_Z n) (halfGapBelow n)) v
     && Qle_bool v (Qplus (inject_Z n) (halfUlp n))
  then Some n else None.

(** The number the age input holds when it satisfies its constraints;
    it is also what [Number(age)] gives for such a string. *)
Definition ageNumber (s : string) : option Z :=
  match parseFloatingPoint s with
  | Some d => roundsToAge (valueOf d)
  | None => None
  end.

Definition ageSatisfied (s : string) : bool :=
  Js.truthy_string s &&
  match ageNumber s with
  | Some _ => true
  | None => false
  end.

(** The controls that fail their constraints, in document order. *)
Inductive Control : Type := AgeInput | RankSelect | DivisionSelect | ExperienceSelect.

Definition invalidControls (h : Hooks) : list Control :=
  (if ageSatisfied (age h) then [] else [AgeInput]) ++
  (if Js.truthy_string (rank h) then [] else [RankSelect]) ++
  (if divisionRendered h && negb (Js.truthy_string (division h))
   then [DivisionSelect] else []) ++
  (if negb (experienceDisabled h) && negb (Js.truthy_string (experienceShown h))
   then [ExperienceSelect] else []).

Definition formValid (h : Hooks) : bool :=
  match invalidControls h with
  | [] => true
  | _ :: _ => false
  end.

(** *** The component in its environment

    [show] is the prop the parent passes; [inflight] counts the requests
    issued by [fetch] that have not settled yet. *)
Record World : Type := mkWorld {
  show : bool;
  hooks : Hooks;
  inflight : nat
}.

(** What can happen to a mounted modal: the parent changes [show], the
    user operates a control, or an outstanding request settles. *)
Inductive UIEvent : Type :=
| ParentShows (b : bool)
| ChangeAge (v : string)
| ChangeRank (v : string)
| ChangeDivision (v : string)
| ChangeExperience (v : string)
| Submit
| ToastOK
| Settles (o : FetchOutcome).

(** Run a handler against the hooks of a world. *)
Definition apply (a : Act unit) (w : World) : World * list Effect :=
  let '(_, h, effs) := a (hooks w) in
  (mkWorld (show w) h (inflight w), effs).

(** [if (!show) return null], then the form alternative. *)
Definition formShown (w : World) : bool :=
  show w && Panel_eqb (panel (hooks w)) Form.

(** The submit event reaches [handleSubmit]: the form is rendered, its
    button is enabled and the constraints hold. *)
Definition submitEnabled (w : World) : bool :=
  formShown w && negb (submitDisabled (hooks w)) && formValid (hooks w).

(** An event delivered once React has committed the render of the current
    hooks: it reaches the handler that render attached to the control,
    provided the render contains the control and the control is enabled;
    otherwise nothing happens.  An event that arrives before that render
    is committed meets the previous render instead; [deliver] below is the
    general case. *)
Definition dispatch (w : World) (ev : UIEvent) : World * list Effect :=
  match ev with
  | ParentShows b => (mkWorld b (hooks w) (inflight w), [])
  | ChangeAge v =>
      if formShown w then apply (setAge v) w else (w, [])
  | ChangeRank v =>
      if formShown w then apply (setRank v ;; setDivision "") w else (w, [])
  | ChangeDivision v =>
      if formShown w && divisionRendered (hooks w)
      then apply (setDivision v) w else (w, [])
  | ChangeExperience v =>
      if formShown w && negb (experienceDisabled (hooks w))
      then apply (setExperience v) w else (w, [])
  | Submit =>
      if submitEnabled w then
        let (w', effs) := apply (handleSubmit_begin (hooks w)) w in
        (mkWorld (show w') (hooks w') (S (inflight w')), effs)
      else (w, [])
  | ToastOK =>
      if show w && toastShown (hooks w)
      then apply (handleToastConfirm (hooks w)) w else (w, [])
  | Settles o =>
      match inflight w with
      | O => (w, [])
      | S n => apply (handleSubmit_settle o) (mkWorld (show w) (hooks w) n)
      end
  end.

(** A sequence of events, with every effect performed along the way. *)
Fixpoint run (w : World) (evs : list UIEvent) : World * list Effect :=
  match evs with
  | [] => (w, [])
  | ev :: evs' =>
      let (w1, e1) := dispatch w ev in
      let (w2, e2) := run w1 evs' in
      (w2, e1 ++ e2)
  end.

Definition initialHooks : Hooks :=
  {| age := ""; rank := ""; division := ""; experience := "";
     submitted := false; apiResult := Js.JNull; loading := false;
     error := None; showToast := false; toastMsg := "" |}.

Definition opened : World :=
  {| show := true; hooks := initialHooks; inflight := O |}.

Definition is_fetch (e : Effect) : bool :=
  match e with Fetch _ _ => true | _ => false end.

Definition is_storage_write (e : Effect) : bool :=
  match e with LocalStorageSetItem _ _ => true | _ => false end.

Definition is_navigation (e : Effect) : bool :=
  match e with SetLocationHref _ => true | _ => false end.

(** Number of gateway requests among the effects. *)
Definition fetches (effs : list Effect) : nat :=
  List.length (List.filter is_fetch effs).

(** The bodies of the gateway requests among the effects. *)
Definition requestsSent (effs : list Effect) : list CareerRequest :=
  List.flat_map (fun e => match e with Fetch _ b => [b] | _ => [] end) effs.

(** The submission status the flags encode. *)
Inductive Status : Type := Idle | Submitting | Succeeded | Failed.

Definition submissionStatus (h : Hooks) : Status :=
  if loading h then Submitting
  else if Js.truthy (apiResult h) then Succeeded
  else match error h with
       | Some _ => Failed
       | None => Idle
       end.


(** *** Concrete inputs *)

(** A response body as the gateway sends it on success. *)
Definition placement : Js.json :=
  Js.JObj [ ("starting_tier", Js.JStr "Tier 3"); ("career_info", Js.JObj []) ].

(** The user fills the form as a Radiant with tier-2 experience. *)
Definition fill_radiant : list UIEvent :=
  [ ChangeAge "20"; ChangeRank "Radiant"; ChangeExperience "Tier 2" ].

(** The user picks Immortal and an experience tier, then changes the rank
    to Gold, division 1. *)
Definition fill_gold_after_immortal : list UIEvent :=
  [ ChangeAge "20"; ChangeRank "Immortal"; ChangeExperience "Tier 1";
    ChangeRank "Gold"; ChangeDivision "1" ].

(** The user picks Gold, division 1, and never touches the experience
    select. *)
Definition fill_gold : list UIEvent :=
  [ ChangeAge "20"; ChangeRank "Gold"; ChangeDivision "1" ].


(** *** Invariants of the event loop *)

(** The request counter and the flags agree: a request is outstanding
    exactly while [loading] is set, and a truthy [apiResult] was stored by
    a settled, successful submission. *)
Definition consistent (w : World) : Prop :=
  inflight w = (if loading (hooks w) then 1%nat else 0%nat) /\
  (Js.truthy (apiResult (hooks w)) = true ->
   submitted (hooks w) = true /\ loading (hooks w) = false).

(** The placement was acknowledged: the toast is dismissed over a stored
    result. *)
Definition acknowledged (w : World) : Prop :=
  showToast (hooks w) = false /\
  submitted (hooks w) = true /\
  Js.truthy (apiResult (hooks w)) = true.


(** The storage writes and navigations among the effects, in order. *)
Definition persistence (effs : list Effect) : list Effect :=
  List.filter (fun e => is_storage_write e || is_navigation e) effs.

(** The request did not end in a parsed, successful response. *)
Definition failing (o : FetchOutcome) : bool :=
  match o with
  | Responded true (Some _) => false
  | _ => true
  end.

(** The hooks with [rank] replaced. *)
Definition withRank (r : string) (h : Hooks) : Hooks :=
  snd (fst (setRank r h)).

(** *** Further vocabulary for statements about the event loop *)

(** The events a user causes through a control of the modal. *)
Definition userEvent (ev : UIEvent) : bool :=
  match ev with
  | ParentShows _ => false
  | Settles _ => false
  | _ => true
  end.

(** What the gate in front of [handleSubmit] guarantees of a request
    body: an age that is an integer from 16 to 99, a selected rank, [null]
    as division exactly for Radiant and a selected division otherwise, and
    a selected experience whenever the rank leaves that select enabled. *)
Definition wellFormed (r : CareerRequest) : Prop :=
  (exists n, ageNumber (age_of r) = Some n /\ 16 <= n <= 99) /\
  current_rank r <> "" /\
  (current_rank r = "Radiant" -> division_field r = None) /\
  (current_rank r <> "Radiant" ->
   exists d, division_field r = Some d /\ d <> "") /\
  ((Js.indexOf rankOptions (current_rank r) <? 7) = false ->
   past_experience r <> "").


(** *** Events against the render on screen

    A handler only queues its updates.  Until React commits the next
    render, the controls on screen, their attributes and the closures of
    their handlers are those of the previous render.  [deliver r w ev]
    delivers [ev] to the render [r] while the hooks are those of [w]: the
    gates and the values the handlers close over are read from [r], the
    setters act on [w].  The continuation of [handleSubmit] runs when the
    request settles, whatever is on screen. *)
Definition deliver (r w : World) (ev : UIEvent) : World * list Effect :=
  match ev with
  | ParentShows b => (mkWorld b (hooks w) (inflight w), [])
  | ChangeAge v =>
      if formShown r then apply (setAge v) w else (w, [])
  | ChangeRank v =>
      if formShown r then apply (setRank v ;; setDivision "") w else (w, [])
  | ChangeDivision v =>
      if formShown r && divisionRendered (hooks r)
      then apply (setDivision v) w else (w, [])
  | ChangeExperience v =>
      if formShown r && negb (experienceDisabled (hooks r))
      then apply (setExperience v) w else (w, [])
  | Submit =>
      if submitEnabled r then
        let (w', effs) := apply (handleSubmit_begin (hooks r)) w in
        (mkWorld (show w') (hooks w') (S (inflight w')), effs)
      else (w, [])
  | ToastOK =>
      if show r && toastShown (hooks r)
      then apply (handleToastConfirm (hooks r)) w else (w, [])
  | Settles o =>
      match inflight w with
      | O => (w, [])
      | S n => apply (handleSubmit_settle o) (mkWorld (show w) (hooks w) n)
      end
  end.

(** The modal with the render on screen ([screen]) and the hooks as the
    handlers have left them ([live]). *)
Record Page : Type := mkPage {
  screen : World;
  live : World
}.

(** An event of the modal, or React committing the render of the current
    hooks. *)
Inductive PageEvent : Type :=
| Event (ev : UIEvent)
| Commit.

Definition pageStep (p : Page) (e : PageEvent) : Page * list Effect :=
  match e with
  | Event ev =>
      let (w', effs) := deliver (screen p) (live p) ev in
      (mkPage (screen p) w', effs)
  | Commit => (mkPage (live p) (live p), [])
  end.

Fixpoint pageRun (p : Page) (es : list PageEvent) : Page * list Effect :=
  match es with
  | [] => (p, [])
  | e :: es' =>
      let (p1, e1) := pageStep p e in
      let (p2, e2) := pageRun p1 es' in
      (p2, e1 ++ e2)
  end.

(** Every event followed by a commit. *)
Definition committing (evs : list UIEvent) : list PageEvent :=
  List.flat_map (fun ev => [Event ev; Commit]) evs.

Definition openedPage : Page := mkPage opened opened.

(** What the specification asks of a submit: while a submission is
    outstanding it is rejected at once, changing nothing and issuing no
    request. *)
Definition rejected_while_submitting (p : Page) : Prop :=
  submissionStatus (hooks (live p)) = Submitting ->
  pageStep p (Event Submit) = (p, []).

End LandingModal.

(** ** The navigation bar: [components/common/navbar] *)
Module Navbar.

(** [classNames(...classes)]: [classes.filter(Boolean).join(' ')].  Every
    call site passes strings, of which only the empty one is falsy. *)
Definition classNames (classes : list string) : string :=
  String.concat " " (List.filter Js.truthy_string classes).

(** An entry of a navigation list.  [current] is [None] where the object
    has no such field. *)
Record NavItem : Type := mkItem {
  name : string;
  href : string;
  current : option bool
}.

(** [item.current ? a : b] *)
Definition isCurrent (item : NavItem) : bool :=
  match current item with
  | Some b => b
  | None => false
  end.

(** The props of [Navbar]; [None] stands for a prop that is not passed. *)
Record Props : Type := mkProps {
  navigation : option (list NavItem);
  profileNavigation : option (list NavItem);
  logoSrc : option string;
  profileIconSrc : option string;
  hideUserProfile : option bool;
  enableHamburger : option bool;
  sidebarNavigation : option (list NavItem)
}.

Definition LOGO_PLACEHOLDER : string :=
  "https://placehold.co/32x32/indigo/white?text=LOGO".
Definition USER_PLACEHOLDER : string :=
  "https://placehold.co/32x32/gray/white?text=USER".

(** [s || fallback] for an optional string. *)
Definition orElse (s : option string) (fallback : string) : string :=
  match s with
  | Some v => if Js.truthy_string v then v else fallback
  | None => fallback
  end.

Definition finalLogoSrc (p : Props) : string := orElse (logoSrc p) LOGO_PLACEHOLDER.

Definition finalProfileIconSrc (p : Props) : string :=
  orElse (profileIconSrc p) USER_PLACEHOLDER.

(** The default of the destructured parameter: [enableHamburger = true]. *)
Definition hamburgerEnabled (p : Props) : bool :=
  match enableHamburger p with
  | Some b => b
  | None => true
  end.

(** [sidebarNavigation || currentNavigation]: an array is truthy, also
    when it is empty. *)
Definition sidebarNav (p : Props) : option (list NavItem) :=
  match sidebarNavigation p with
  | Some items => Some items
  | None => navigation p
  end.

(** The links [sidebarNav?.map(...)] renders. *)
Definition sidebarLinks (p : Props) : list NavItem :=
  match sidebarNav p with
  | Some items => items
  | None => []
  end.

(** The [className] of a link of the centre navigation. *)
Definition linkClass (item : NavItem) : string :=
  classNames
    [ if isCurrent item then "bg-gray-900 text-white"
      else "text-gray-300 hover:bg-gray-700 hover:text-white";
      "rounded-md px-3 py-2 text-sm font-medium" ].

(** The [className] of an entry of the profile menu. *)
Definition menuItemClass (focus : bool) : string :=
  classNames
    [ if focus then "bg-gray-100" else "";
      "block px-4 py-2 text-sm text-gray-700" ].

(** [enableHamburger && sidebarOpen]: the overlay and the sidebar panel
    are rendered. *)
Definition sidebarShown (p : Props) (sidebarOpen : bool) : bool :=
  hamburgerEnabled p && sidebarOpen.

(** What the user can do to the sidebar. *)
Inductive Event : Type :=
| ClickHamburger
| ClickOverlay
| KeyDownOverlay (key : string)
| ClickCloseButton
| ClickSidebarLink (i : nat).

(** A click on a sidebar link runs its [onClick] and then follows the
    link. *)
Inductive Effect : Type :=
| FollowLink (target : string).

(** One event against the current render; the state is [sidebarOpen]. *)
Definition dispatch (p : Props) (sidebarOpen : bool) (ev : Event)
  : bool * list Effect :=
  match ev with
  | ClickHamburger =>
      if hamburgerEnabled p then (true, []) else (sidebarOpen, [])
  | ClickOverlay =>
      if sidebarShown p sidebarOpen then (false, []) else (sidebarOpen, [])
  | KeyDownOverlay key =>
      if sidebarShown p sidebarOpen then
        if String.eqb key "Escape" then (false, []) else (sidebarOpen, [])
      else (sidebarOpen, [])
  | ClickCloseButton =>
      if sidebarShown p sidebarOpen then (false, []) else (sidebarOpen, [])
  | ClickSidebarLink i =>
      if sidebarShown p sidebarOpen then
        match List.nth_error (sidebarLinks p) i with
        | Some item => (false, [FollowLink (href item)])
        | None => (sidebarOpen, [])
        end
      else (sidebarOpen, [])
  end.

Fixpoint run (p : Props) (sidebarOpen : bool) (evs : list Event)
  : bool * list Effect :=
  match evs with
  | [] => (sidebarOpen, [])
  | ev :: evs' =>
      let (s1, e1) := dispatch p sidebarOpen ev in
      let (s2, e2) := run p s1 evs' in
      (s2, e1 ++ e2)
  end.

End Navbar.

(** ** The application shell: [NavigationWrapper] of [App] *)
Module App.

Definition navigationItemsLanding : list Navbar.NavItem :=
  [ Navbar.mkItem "Home" "/" None ].

Definition navigationItemsCareer : list Navbar.NavItem :=
  [ Navbar.mkItem "Dashboard" "/career" None;
    Navbar.mkItem "Ranked" "/career/ranked" None;
    Navbar.mkItem "Leaderboard" "/career/leaderboard" None;
    Navbar.mkItem "Schedule" "/career/schedule" None ].

Definition sidebarNavigationItems : list Navbar.NavItem :=
  [ Navbar.mkItem "Offers" "/career/offers" None;
    Navbar.mkItem "Tryouts" "/career/tryouts" None;
    Navbar.mkItem "Sponsors" "/career/sponsors" None ].

(** [location.pathname.startsWith('/career')] *)
Definition isCareer (pathname : string) : bool :=
  String.prefix "/career" pathname.

(** [{ ...item, current: location.pathname === item.href }] *)
Definition markCurrent (pathname : string) (item : Navbar.NavItem)
  : Navbar.NavItem :=
  Navbar.mkItem (Navbar.name item) (Navbar.href item)
                (Some (String.eqb pathname (Navbar.href item))).

(** The list handed to [Navbar] as [navigation]. *)
Definition navigation (pathname : string) : list Navbar.NavItem :=
  List.map (markCurrent pathname)
           (if isCareer pathname then navigationItemsCareer
            else navigationItemsLanding).

(** The props [NavigationWrapper] passes; [logo] is the address the
    bundler gives the logo asset.  [showHamburger] is passed too, but it is
    no prop of [Navbar]. *)
Definition navbarProps (logo : string) (pathname : string) : Navbar.Props :=
  {| Navbar.navigation := Some (navigation pathname);
     Navbar.profileNavigation := None;
     Navbar.logoSrc := Some logo;
     Navbar.profileIconSrc := None;
     Navbar.hideUserProfile := Some true;
     Navbar.enableHamburger := None;
     Navbar.sidebarNavigation := Some sidebarNavigationItems |}.

End App.

(** ** The dashboard: [pages/career/career] *)
Module Career.

Record Email : Type := mkEmail {
  id : Z;
  subject : string;
  from : string;
  preview : string;
  content : string
}.

Definition fakeInbox : list Email :=
  [ mkEmail 1 "Welcome to the League!" "Commissioner"
      "Congratulations on joining the Valorant Pro League..."
      "Congratulations on joining the Valorant Pro League! We are excited to have you. Your journey begins now. Good luck!";
    mkEmail 2 "Contract Offer: Team Phoenix" "Team Phoenix"
      "We would like to offer you a spot on our roster..."
      "Team Phoenix is offering you a contract for 2 seasons with a competitive salary. Reply to negotiate or accept.";
    mkEmail 3 "Scrim Schedule" "Coach"
      "Please see the attached scrim schedule for next week..."
      "Your scrim schedule for next week is attached. Be prepared and on time!" ].

(** The one hook of [Career]: [openEmail], an email or [null]. *)
Definition State : Type := option Email.

Definition initial : State := None.

Inductive Event : Type :=
| ClickEmail (i : nat)     (* a click on the [i]-th entry of the inbox *)
| ClickClose.              (* a click on the Close button of the open email *)

(** The inbox entries carry [pointerEvents: openEmail ? 'none' : 'auto'],
    and the Close button is rendered only under [openEmail && ...]. *)
Definition dispatch (openEmail : State) (ev : Event) : State :=
  match ev with
  | ClickEmail i =>
      match openEmail with
      | Some _ => openEmail
      | None =>
          match List.nth_error fakeInbox i with
          | Some email => Some email
          | None => openEmail
          end
      end
  | ClickClose =>
      match openEmail with
      | Some _ => None
      | None => openEmail
      end
  end.

Definition run (openEmail : State) (evs : list Event) : State :=
  List.fold_left dispatch evs openEmail.

Definition isClose (ev : Event) : bool :=
  match ev with
  | ClickClose => true
  | ClickEmail _ => false
  end.

End Career.

(** * Properties of the milestone stepper *)
Section StepperProperties.
Import Landing.

Lemma milestones_length_eq : milestones_length = 6.
Proof. reflexivity. Qed.

Lemma nextIdx_bounds (e : WheelEvent) (idx : Z) :
  0 <= idx <= milestones_length - 1 ->
  0 <= nextIdx e idx <= milestones_length - 1.
Proof.
  intros Hidx. unfold nextIdx.
  destruct (Js.gt_zero (deltaY e)).
  - destruct (Z.ltb_spec idx (milestones_length - 1)); lia.
  - destruct (Z.gtb_spec idx 0); lia.
Qed.

Lemma flushEffects_activeIdx (prev st : State) :
  activeIdx (flushEffects prev st) = activeIdx st.
Proof.
  unfold flushEffects. destruct (activeIdx st =? activeIdx prev); reflexivity.
Qed.

Lemma step_activeIdx (st : State) (d : Delivery) :
  activeIdx (fst (step st d)) =
  if throttled d st then activeIdx st else nextIdx (event d) (activeIdx st).
Proof.
  unfold step, handleWheel, throttled.
  destruct (now d - lastScroll st <? SCROLL_THROTTLE_MS); cbn [fst];
    rewrite flushEffects_activeIdx; reflexivity.
Qed.

Lemma step_bounds (st : State) (d : Delivery) :
  0 <= activeIdx st <= milestones_length - 1 ->
  0 <= activeIdx (fst (step st d)) <= milestones_length - 1.
Proof.
  intros Hidx. rewrite step_activeIdx.
  destruct (throttled d st); [assumption | now apply nextIdx_bounds].
Qed.

Lemma run_bounds (ds : list Delivery) :
  forall st,
    0 <= activeIdx st <= milestones_length - 1 ->
    0 <= activeIdx (run st ds) <= milestones_length - 1.
Proof.
  induction ds as [| d ds IH]; intros st Hst; cbn [run].
  - assumption.
  - apply IH. now apply step_bounds.
Qed.

Lemma reachable_run (ds : list Delivery) :
  forall st, reachable st -> reachable (run st ds).
Proof.
  induction ds as [| d ds IH]; intros st Hst; cbn [run].
  - assumption.
  - apply IH. now constructor.
Qed.

Lemma reachable_is_run (st : State) :
  reachable st -> exists ds, st = run mounted ds.
Proof.
  induction 1 as [| st d _ [ds ->]].
  - now exists [].
  - exists (ds ++ [d]). revert d. generalize mounted.
    induction ds as [| d0 ds IH]; intros s d; cbn [run app].
    + reflexivity.
    + apply IH.
Qed.

(** The flag is re-synchronised exactly when the index changes, so it
    agrees with the index after every step that starts from agreement. *)
Lemma step_keeps_flag (st : State) (d : Delivery) :
  canStart st = (activeIdx st =? milestones_length - 1) ->
  canStart (fst (step st d)) =
  (activeIdx (fst (step st d)) =? milestones_length - 1).
Proof.
  intros Hflag. unfold step, handleWheel.
  destruct (now d - lastScroll st <? SCROLL_THROTTLE_MS); cbn [fst].
  - unfold flushEffects. rewrite Z.eqb_refl. exact Hflag.
  - unfold flushEffects. cbn [activeIdx].
    destruct (Z.eqb_spec (nextIdx (event d) (activeIdx st)) (activeIdx st)) as [Heq | Hne].
    + cbn [canStart activeIdx]. rewrite Heq. exact Hflag.
    + reflexivity.
Qed.

(** An accepted event whose delta is not positive takes the backward
    branch, whatever the delta is. *)
Lemma not_positive_steps_back (st : State) (d : Delivery) :
  throttled d st = false ->
  Js.gt_zero (deltaY (event d)) = false ->
  0 < activeIdx st ->
  activeIdx (fst (step st d)) = activeIdx st - 1.
Proof.
  intros Hacc Hdelta Hpos. rewrite step_activeIdx, Hacc.
  unfold nextIdx. rewrite Hdelta.
  destruct (Z.gtb_spec (activeIdx st) 0); [reflexivity | lia].
Qed.

(** C3, as stated, fails: an event 100 ms after an accepted one leaves
    the state alone but performs neither the scroll reset nor
    [preventDefault]. *)
Lemma throttled_event_not_consumed :
  ~ throttled_event_consumed (mkDelivery 1100 forward)
      (run mounted [mkDelivery 1000 forward]).
Proof.
  unfold throttled_event_consumed. intros H.
  destruct (H eq_refl) as [_ Heffs]. vm_compute in Heffs. discriminate Heffs.
Qed.

(** C3 (amended): an event that arrives less than [SCROLL_THROTTLE_MS]
    after the last accepted one is dropped by the guard at the top of
    [handleWheel]: the index, the timestamp, the flag and the body lock are
    unchanged, and no side effect is performed -- in particular the scroll
    offset is not reset and [preventDefault] is not called. *)
Theorem throttled_event_ignored (d : Delivery) (st : State) :
  now d - lastScroll st < SCROLL_THROTTLE_MS ->
  handleWheel d st = (st, []) /\
  step st d = (st, []) /\
  ~ In PreventDefault (snd (step st d)) /\
  ~ In ScrollToTop (snd (step st d)).
Proof.
  intros Hthr. apply Z.ltb_lt in Hthr.
  assert (Hh : handleWheel d st = (st, [])).
  { unfold handleWheel. now rewrite Hthr. }
  assert (Hs : step st d = (st, [])).
  { unfold step. rewrite Hh. unfold flushEffects. now rewrite Z.eqb_refl. }
  repeat split; try assumption; rewrite Hs; cbn; tauto.
Qed.

Lemma throttled_event_ignored_witness :
  1100 - lastScroll (run mounted [mkDelivery 1000 forward]) < SCROLL_THROTTLE_MS /\
  step (run mounted [mkDelivery 1000 forward]) (mkDelivery 1100 forward)
  = (run mounted [mkDelivery 1000 forward], []).
Proof.
  split.
  - vm_compute. reflexivity.
  - apply (throttled_event_ignored (mkDelivery 1100 forward)
             (run mounted [mkDelivery 1000 forward])).
    vm_compute. reflexivity.
Defined.

(** C4: the code at the failing input.  After three accepted forward
    events the index is 3; an accepted event with [deltaY = 0] then moves
    it to 2, and so does one with [deltaY = NaN]: the handler only tests
    [deltaY > 0] and sends everything else down the backward branch. *)
Theorem zero_delta_moves_index_back :
  activeIdx (run mounted (spaced_forwards 3)) = 3 /\
  activeIdx (run mounted (spaced_forwards 3 ++ [mkDelivery 4000 zero_delta])) = 2 /\
  activeIdx (run mounted (spaced_forwards 3 ++ [mkDelivery 4000 nan_delta])) = 2.
Proof. repeat split; vm_compute; reflexivity. Qed.

(** C7: whatever wheel events arrive, from the mounted component on, the
    index stays within [0, N-1]; an accepted forward event at [N-1] leaves
    it at [N-1] and an accepted event taking the backward branch at [0]
    leaves it at [0]. *)
Theorem activeIdx_stays_in_range :
  (forall ds : list Delivery,
      0 <= activeIdx (run mounted ds) <= milestones_length - 1) /\
  (forall st d,
      throttled d st = false ->
      Js.gt_zero (deltaY (event d)) = true ->
      activeIdx st = milestones_length - 1 ->
      activeIdx (fst (step st d)) = milestones_length - 1) /\
  (forall st d,
      throttled d st = false ->
      Js.gt_zero (deltaY (event d)) = false ->
      activeIdx st = 0 ->
      activeIdx (fst (step st d)) = 0).
Proof.
  split; [| split].
  - intros ds. apply run_bounds. vm_compute. split; discriminate.
  - intros st d Hacc Hfwd Hlast. rewrite step_activeIdx, Hacc.
    unfold nextIdx. rewrite Hfwd, Hlast, Z.ltb_irrefl. reflexivity.
  - intros st d Hacc Hbwd Hfirst. rewrite step_activeIdx, Hacc.
    unfold nextIdx. rewrite Hbwd, Hfirst. reflexivity.
Qed.

Lemma activeIdx_stays_in_range_witness :
  0 <= activeIdx (run mounted (spaced_forwards 7)) <= milestones_length - 1 /\
  activeIdx (fst (step (run mounted (spaced_forwards 5)) (mkDelivery 9000 forward)))
  = milestones_length - 1 /\
  activeIdx (fst (step mounted (mkDelivery 9000 backward))) = 0.
Proof.
  destruct activeIdx_stays_in_range as [Hrange [Hlast Hfirst]].
  split; [| split].
  - apply Hrange.
  - apply Hlast; vm_compute; reflexivity.
  - apply Hfirst; vm_compute; reflexivity.
Defined.

Lemma handleWheel_canStart (st : State) (d : Delivery) :
  canStart (fst (handleWheel d st)) = canStart st.
Proof.
  unfold handleWheel.
  destruct (now d - lastScroll st <? SCROLL_THROTTLE_MS); reflexivity.
Qed.

Lemma reachable_flag (st : State) :
  reachable st -> canStart st = (activeIdx st =? milestones_length - 1).
Proof.
  induction 1 as [| st d _ IH]; [reflexivity | now apply step_keeps_flag].
Qed.

(** C8, as stated, fails: React commits the render of the state the
    handler leaves before the [canStart] effect runs.  After four spaced
    forward events, the fifth leaves the index on the last milestone while
    the flag is still false. *)
Lemma stale_flag_is_rendered :
  ~ (forall st, rendered st -> flag_iff_last st).
Proof.
  intros Hall.
  assert (Hr : rendered (fst (handleWheel (mkDelivery 5000 forward)
                                (run mounted (spaced_forwards 4))))).
  { apply rendered_after_handler. apply reachable_run, reach_mounted. }
  destruct (Hall _ Hr) as [_ Hback].
  assert (Hflag : canStart (fst (handleWheel (mkDelivery 5000 forward)
                                   (run mounted (spaced_forwards 4)))) = true)
    by (apply Hback; reflexivity).
  vm_compute in Hflag. discriminate Hflag.
Qed.

(** C8 (amended): in every state in which the effect of the last render
    has run -- the mounted component and the state after each completed
    event -- [canStart] is true exactly when the index is that of the last
    milestone, and the start button is enabled exactly then.  The render
    committed right after a handler still carries the flag of the index
    before the event; the effect that follows restores the agreement. *)
Theorem canStart_settles_after_effect (st : State) :
  reachable st ->
  flag_iff_last st /\
  (startDisabled st = false <-> activeIdx st = milestones_length - 1) /\
  (forall d,
      (canStart (fst (handleWheel d st)) = true <->
       activeIdx st = milestones_length - 1) /\
      flag_iff_last (fst (step st d))).
Proof.
  intros Hreach. pose proof (reachable_flag st Hreach) as Hflag.
  assert (Hiff : forall s,
             canStart s = (activeIdx s =? milestones_length - 1) ->
             flag_iff_last s).
  { intros s Hs. unfold flag_iff_last. rewrite Hs. apply Z.eqb_eq. }
  split; [now apply Hiff |]. split.
  - unfold startDisabled. rewrite Hflag. rewrite negb_false_iff. apply Z.eqb_eq.
  - intros d. split.
    + rewrite handleWheel_canStart. now apply Hiff.
    + apply Hiff. now apply step_keeps_flag.
Qed.

Lemma canStart_settles_after_effect_witness :
  flag_iff_last (run mounted (spaced_forwards 5)) /\
  (canStart (fst (handleWheel (mkDelivery 5000 forward)
                    (run mounted (spaced_forwards 4)))) = true <->
   activeIdx (run mounted (spaced_forwards 4)) = milestones_length - 1).
Proof.
  split.
  - apply (canStart_settles_after_effect (run mounted (spaced_forwards 5))).
    apply reachable_run, reach_mounted.
  - apply (canStart_settles_after_effect (run mounted (spaced_forwards 4))).
    apply reachable_run, reach_mounted.
Defined.

(** The flag is written by an effect, after the render that follows the
    handler: that render still carries the previous flag, here with the
    index already on the last milestone.  [step] includes the effect, and
    [reachable] collects the states between two events. *)
Remark flag_follows_render :
  activeIdx (fst (handleWheel (mkDelivery 5000 forward)
                    (run mounted (spaced_forwards 4)))) = milestones_length - 1 /\
  canStart (fst (handleWheel (mkDelivery 5000 forward)
                   (run mounted (spaced_forwards 4)))) = false /\
  canStart (fst (step (run mounted (spaced_forwards 4))
                   (mkDelivery 5000 forward))) = true.
Proof. repeat split; vm_compute; reflexivity. Qed.

(** Every accepted event sets [overflow: hidden] on the body, and nothing
    resets it: once an event was accepted the page stays locked. *)
Lemma locked_after_first_accepted (st : State) :
  reachable st ->
  (lastScroll st = 0 /\ bodyOverflowHidden st = false) \/
  (SCROLL_THROTTLE_MS <= lastScroll st /\ bodyOverflowHidden st = true).
Proof.
  induction 1 as [| st d _ IH].
  - left. split; reflexivity.
  - unfold step, handleWheel.
    destruct (Z.ltb_spec (now d - lastScroll st) SCROLL_THROTTLE_MS) as [Hthr | Hacc];
      cbn [fst]; unfold flushEffects.
    + rewrite Z.eqb_refl. exact IH.
    + right.
      assert (Hs : SCROLL_THROTTLE_MS <= now d).
      { unfold SCROLL_THROTTLE_MS in *. destruct IH as [[Hl _] | [Hl _]]; lia. }
      cbn [activeIdx].
      destruct (nextIdx (event d) (activeIdx st) =? activeIdx st);
        cbn; split; (exact Hs || reflexivity).
Qed.

(** X7: a throttled event whose timestamp is a real clock reading (not
    within the first quarter second of the epoch) finds the page locked:
    although the handler returns before [preventDefault], the body has
    [overflow: hidden] by then. *)
Lemma throttled_only_while_locked (st : State) (d : Delivery) :
  reachable st ->
  SCROLL_THROTTLE_MS <= now d ->
  throttled d st = true ->
  bodyOverflowHidden st = true.
Proof.
  intros Hreach Hclock Hthr. unfold throttled in Hthr. apply Z.ltb_lt in Hthr.
  destruct (locked_after_first_accepted st Hreach) as [[Hl _] | [_ Hlock]].
  - rewrite Hl in Hthr. lia.
  - exact Hlock.
Qed.

End StepperProperties.

(** * Properties of the intake form *)
Section IntakeFormProperties.
Import LandingModal.

(** ** The render hides the form while a request is outstanding *)

Lemma panel_Form_not_loading (h : Hooks) :
  panel h = Form -> loading h = false.
Proof.
  unfold panel.
  destruct (submitted h), (Js.truthy (apiResult h)), (showToast h), (loading h);
    cbn; congruence.
Qed.

Lemma Panel_eqb_eq (a b : Panel) : Panel_eqb a b = true <-> a = b.
Proof. destruct a, b; cbn; split; congruence. Qed.

Lemma formShown_inv (w : World) :
  formShown w = true ->
  show w = true /\ panel (hooks w) = Form /\ loading (hooks w) = false.
Proof.
  unfold formShown. intros H. apply andb_true_iff in H as [Hs Hp].
  apply Panel_eqb_eq in Hp. auto using panel_Form_not_loading.
Qed.

Lemma loading_hides_form (w : World) :
  loading (hooks w) = true -> formShown w = false.
Proof.
  intros Hl. destruct (formShown w) eqn:E; [| reflexivity].
  apply formShown_inv in E as (_ & _ & E). congruence.
Qed.

Lemma submit_while_loading (w : World) :
  loading (hooks w) = true -> dispatch w Submit = (w, []).
Proof.
  intros Hl. cbn [dispatch]. unfold submitEnabled.
  now rewrite (loading_hides_form w Hl).
Qed.

(** [handleSubmit] itself never reads [loading]: called on a render that
    is already loading, it issues a request all the same.  The guard is
    the render, not the handler. *)
Remark handleSubmit_has_no_guard (c h : Hooks) :
  List.filter is_fetch (snd (handleSubmit_begin c h)) =
  [Fetch CREATE_CAREER_URL (requestBody c)].
Proof. reflexivity. Qed.

(** ** Invariants along every sequence of events *)

Lemma dispatch_consistent (w : World) (ev : UIEvent) :
  consistent w -> consistent (fst (dispatch w ev)).
Proof.
  intros Hc. destruct ev; cbn [dispatch].
  - exact Hc.
  - destruct (formShown w); exact Hc.
  - destruct (formShown w); exact Hc.
  - destruct (formShown w && divisionRendered (hooks w)); exact Hc.
  - destruct (formShown w && negb (experienceDisabled (hooks w))); exact Hc.
  - destruct (submitEnabled w) eqn:E; [| exact Hc].
    unfold submitEnabled in E.
    apply andb_true_iff in E as [E _]. apply andb_true_iff in E as [E _].
    apply formShown_inv in E as (_ & _ & Hl).
    destruct Hc as [Hn _]. rewrite Hl in Hn.
    split; cbn; [now rewrite Hn | discriminate].
  - destruct (show w && toastShown (hooks w)); [| exact Hc].
    unfold apply, handleToastConfirm.
    destruct (Js.truthy (apiResult (hooks w))) eqn:Ht; exact Hc.
  - destruct (inflight w) as [| n] eqn:En; [exact Hc |].
    destruct Hc as [Hn Hres]. rewrite En in Hn.
    destruct (loading (hooks w)) eqn:Hl; [| discriminate].
    injection Hn as ->.
    destruct o as [| [|] [data |]]; cbn; split; try reflexivity; auto;
      intros Ht; specialize (Hres Ht); destruct Hres; try congruence; auto.
Qed.

Lemma run_cons_fst (w : World) (ev : UIEvent) (evs : list UIEvent) :
  fst (run w (ev :: evs)) = fst (run (fst (dispatch w ev)) evs).
Proof.
  cbn [run]. destruct (dispatch w ev) as [w1 e1]. cbn [fst].
  now destruct (run w1 evs).
Qed.

Lemma run_cons_snd (w : World) (ev : UIEvent) (evs : list UIEvent) :
  snd (run w (ev :: evs)) =
  snd (dispatch w ev) ++ snd (run (fst (dispatch w ev)) evs).
Proof.
  cbn [run]. destruct (dispatch w ev) as [w1 e1]. cbn [fst snd].
  now destruct (run w1 evs).
Qed.

Lemma run_consistent (evs : list UIEvent) :
  forall w, consistent w -> consistent (fst (run w evs)).
Proof.
  induction evs as [| ev evs IH]; intros w Hc.
  - exact Hc.
  - rewrite run_cons_fst. apply IH. now apply dispatch_consistent.
Qed.

Lemma opened_consistent : consistent opened.
Proof. split; [reflexivity | discriminate]. Qed.

Lemma Submitting_iff_loading (h : Hooks) :
  submissionStatus h = Submitting <-> loading h = true.
Proof.
  unfold submissionStatus.
  destruct (loading h), (Js.truthy (apiResult h)), (error h); split; congruence.
Qed.

Lemma truthy_string_iff (s : string) : Js.truthy_string s = true <-> s <> "".
Proof. destruct s; cbn; split; congruence. Qed.

(** An accepted submit sets [loading] and issues exactly one request,
    whose body is built from the hooks as they are. *)
Lemma submit_accepted (w : World) :
  submitEnabled w = true ->
  loading (hooks (fst (dispatch w Submit))) = true /\
  snd (dispatch w Submit) =
    [PreventDefault; ConsoleLog "Submitting career creation:";
     Fetch CREATE_CAREER_URL (requestBody (hooks w))].
Proof.
  intros He. cbn [dispatch]. rewrite He. split; reflexivity.
Qed.

(** A submit followed by the settling of its request is one run of
    [handleSubmit]. *)
Lemma submit_then_settle (w : World) (o : FetchOutcome) :
  submitEnabled w = true ->
  run w [Submit; Settles o] =
  (mkWorld (show w) (snd (fst (handleSubmit (hooks w) o (hooks w)))) (inflight w),
   snd (handleSubmit (hooks w) o (hooks w))).
Proof.
  intros He. cbn [run dispatch]. rewrite He.
  destruct o as [| [|] [data |]]; reflexivity.
Qed.

(** Delivered to the render of the current hooks, an event does what
    [dispatch] says. *)
Lemma deliver_on_own_render (w : World) (ev : UIEvent) :
  deliver w w ev = dispatch w ev.
Proof. destruct ev; reflexivity. Qed.

(** With a commit after every event the page follows [run]. *)
Lemma pageRun_committing (evs : list UIEvent) :
  forall w,
    pageRun (mkPage w w) (committing evs) =
    (mkPage (fst (run w evs)) (fst (run w evs)), snd (run w evs)).
Proof.
  induction evs as [| ev evs IH]; intros w; [reflexivity |].
  rewrite run_cons_fst, run_cons_snd.
  cbn [committing List.flat_map app pageRun pageStep screen live].
  rewrite deliver_on_own_render.
  destruct (dispatch w ev) as [w1 e1]. cbn [fst snd].
  change (List.flat_map (fun ev0 => [Event ev0; Commit]) evs) with (committing evs).
  rewrite IH. cbn [app]. reflexivity.
Qed.

(** C1, as stated, fails: [handleSubmit] does not test [loading].  The
    filled form is submitted; the status is Submitting, but until React
    commits the next render the form is still on screen, and a second
    submit delivered to it issues a second request. *)
Lemma second_submit_on_same_render_is_sent :
  ~ rejected_while_submitting
      (fst (pageStep (mkPage (fst (run opened fill_radiant))
                             (fst (run opened fill_radiant)))
              (Event Submit))).
Proof.
  intros Hrej. specialize (Hrej eq_refl).
  apply (f_equal (fun r => fetches (snd r))) in Hrej.
  vm_compute in Hrej. discriminate Hrej.
Qed.

(** C1 (amended): once React has committed the render that follows a
    submit -- the one with [loading] set, status Submitting -- a further
    submit is rejected: that render does not contain the form, the event
    reaches no handler, nothing changes and no request is issued.  When
    every event is followed by a commit, at most one request is outstanding
    at any time, and one is outstanding exactly while the status is
    Submitting; two submits with a commit between them issue exactly one
    request.  [handleSubmit] itself does not test [loading]: two submits
    delivered to the same render of the form issue two requests. *)
Theorem single_flight_once_committed :
  (forall p : Page,
      submissionStatus (hooks (screen p)) = Submitting ->
      pageStep p (Event Submit) = (p, [])) /\
  (forall evs : list UIEvent,
      (inflight (live (fst (pageRun openedPage (committing evs)))) <= 1)%nat /\
      (inflight (live (fst (pageRun openedPage (committing evs)))) = 1%nat <->
       submissionStatus
         (hooks (live (fst (pageRun openedPage (committing evs))))) = Submitting)) /\
  (forall w : World,
      submitEnabled w = true ->
      fetches (snd (pageRun (mkPage w w) [Event Submit; Commit; Event Submit]))
      = 1%nat) /\
  (forall w : World,
      submitEnabled w = true ->
      fetches (snd (pageRun (mkPage w w) [Event Submit; Event Submit]))
      = 2%nat).
Proof.
  split; [| split; [| split]].
  - intros [r w] Hs. apply Submitting_iff_loading in Hs. cbn [screen] in Hs.
    cbn [pageStep deliver screen live]. unfold submitEnabled.
    now rewrite (loading_hides_form r Hs).
  - intros evs. unfold openedPage. rewrite pageRun_committing. cbn [fst live].
    destruct (run_consistent evs opened opened_consistent) as [Hn _].
    rewrite Submitting_iff_loading, Hn.
    destruct (loading (hooks (fst (run opened evs)))); split;
      try lia; split; congruence.
  - intros w He.
    destruct (submit_accepted w He) as [Hl Heffs].
    cbn [pageRun pageStep screen live].
    rewrite deliver_on_own_render.
    destruct (dispatch w Submit) as [w1 e1] eqn:Hd. cbn [fst snd] in Hl, Heffs.
    cbn [screen live].
    rewrite deliver_on_own_render, (submit_while_loading w1 Hl), Heffs.
    reflexivity.
  - intros w He.
    cbn [pageRun pageStep deliver screen live]. rewrite He.
    unfold apply. cbn -[submitEnabled]. rewrite He. reflexivity.
Qed.

Lemma single_flight_once_committed_witness :
  pageStep (mkPage (fst (run opened (fill_radiant ++ [Submit])))
                   (fst (run opened (fill_radiant ++ [Submit]))))
           (Event Submit)
  = (mkPage (fst (run opened (fill_radiant ++ [Submit])))
            (fst (run opened (fill_radiant ++ [Submit]))), []) /\
  fetches (snd (pageRun (mkPage (fst (run opened fill_radiant))
                                (fst (run opened fill_radiant)))
                  [Event Submit; Commit; Event Submit])) = 1%nat /\
  fetches (snd (pageRun (mkPage (fst (run opened fill_radiant))
                                (fst (run opened fill_radiant)))
                  [Event Submit; Event Submit])) = 2%nat.
Proof.
  destruct single_flight_once_committed as (Hreject & _ & Honce & Htwice).
  split; [apply Hreject; reflexivity |].
  split; [apply Honce | apply Htwice]; reflexivity.
Defined.

(** ** Cross-field rules *)

(** Every rank below Immortal disables the experience select. *)
Lemma low_ranks_disable_experience (h : Hooks) :
  Forall (fun r => experienceDisabled (withRank r h) = true)
         (List.firstn 7 rankOptions) /\
  Forall (fun r => experienceDisabled (withRank r h) = false)
         (List.skipn 7 rankOptions).
Proof. split; repeat constructor. Qed.

(** While the experience select is disabled it reads 'None' and a change
    of its value is not delivered. *)
Lemma experience_locked_below_threshold (w : World) (v : string) :
  experienceDisabled (hooks w) = true ->
  experienceShown (hooks w) = "None" /\
  dispatch w (ChangeExperience v) = (w, []).
Proof.
  intros Hdis. split.
  - unfold experienceShown. now rewrite Hdis.
  - cbn [dispatch]. rewrite Hdis. cbn [negb]. now rewrite andb_false_r.
Qed.

(** What a submit sends as past experience is the [experience] hook, not
    the value the select shows. *)
Lemma submit_sends_experience_hook (w : World) :
  submitEnabled w = true ->
  List.map past_experience (requestsSent (snd (dispatch w Submit))) =
  [experience (hooks w)].
Proof.
  intros He. destruct (submit_accepted w He) as [_ ->]. reflexivity.
Qed.

(** C2: the code at the failing inputs.  With rank Gold the experience
    select is disabled, reads 'None' and ignores edits; but the request a
    submit sends carries the [experience] hook: the tier chosen earlier
    under Immortal in the first case, the empty string when the select was
    never touched in the second.  Neither is 'None'. *)
Theorem low_rank_submission_sends_raw_experience :
  experienceDisabled (hooks (fst (run opened fill_gold_after_immortal))) = true /\
  experienceShown (hooks (fst (run opened fill_gold_after_immortal))) = "None" /\
  dispatch (fst (run opened fill_gold_after_immortal)) (ChangeExperience "Tier 2")
  = (fst (run opened fill_gold_after_immortal), []) /\
  List.map past_experience
    (requestsSent (snd (run opened (fill_gold_after_immortal ++ [Submit]))))
  = ["Tier 1"] /\
  List.map past_experience
    (requestsSent (snd (run opened (fill_gold ++ [Submit]))))
  = [""].
Proof. repeat split; vm_compute; reflexivity. Qed.

(** C5: with a rank other than the top tier selected and no division
    chosen, a submit changes nothing and performs no effect, so no request
    reaches the gateway: the submit button is disabled, and the form's
    constraint validation reports the division select as unsatisfied. *)
Theorem submit_without_division_rejected (w : World) :
  rank (hooks w) <> "" ->
  rank (hooks w) <> "Radiant" ->
  division (hooks w) = "" ->
  dispatch w Submit = (w, []) /\
  fetches (snd (dispatch w Submit)) = 0%nat /\
  submitDisabled (hooks w) = true /\
  In DivisionSelect (invalidControls (hooks w)).
Proof.
  intros Hrank Htop Hdiv.
  apply truthy_string_iff in Hrank. apply String.eqb_neq in Htop.
  assert (Hdis : submitDisabled (hooks w) = true).
  { unfold submitDisabled. now rewrite Hrank, Htop, Hdiv. }
  assert (Hrej : dispatch w Submit = (w, [])).
  { cbn [dispatch]. unfold submitEnabled. rewrite Hdis.
    now rewrite andb_false_r. }
  repeat split; try assumption.
  - now rewrite Hrej.
  - unfold invalidControls, divisionRendered. rewrite Hrank, Htop, Hdiv.
    cbn [andb negb Js.truthy_string].
    apply in_or_app. right. apply in_or_app. right. now left.
Qed.

Lemma submit_without_division_rejected_witness :
  rank (hooks (fst (run opened [ChangeAge "20"; ChangeRank "Gold"]))) = "Gold" /\
  dispatch (fst (run opened [ChangeAge "20"; ChangeRank "Gold"])) Submit
  = (fst (run opened [ChangeAge "20"; ChangeRank "Gold"]), []).
Proof.
  split; [reflexivity |].
  apply (submit_without_division_rejected
           (fst (run opened [ChangeAge "20"; ChangeRank "Gold"]))).
  - vm_compute. discriminate.
  - vm_compute. discriminate.
  - vm_compute. reflexivity.
Defined.

(** ** Failure of the request *)

(** The error text is rendered by the error alternative only, and that
    alternative requires [submitted], which only a successful response
    sets. *)
Lemma errorText_needs_submitted (h : Hooks) :
  errorText h <> None -> submitted h = true /\ panel h <> Form.
Proof.
  unfold errorText, panel.
  destruct (submitted h), (Js.truthy (apiResult h)), (showToast h), (loading h);
    cbn; intros H; try (now contradiction H); split; congruence.
Qed.

(** A failed request on a form that never succeeded before stores the
    message, performs no effect, and brings back the form -- without the
    message. *)
Lemma first_failure_shows_form_only (w : World) (o : FetchOutcome) :
  consistent w ->
  (0 < inflight w)%nat ->
  submitted (hooks w) = false ->
  failing o = true ->
  snd (dispatch w (Settles o)) = [] /\
  error (hooks (fst (dispatch w (Settles o)))) = Some FAILURE_MESSAGE /\
  submissionStatus (hooks (fst (dispatch w (Settles o)))) = Failed /\
  panel (hooks (fst (dispatch w (Settles o)))) = Form /\
  errorText (hooks (fst (dispatch w (Settles o)))) = None.
Proof.
  intros [Hn Hres] Hpos Hsub Hfail. cbn [dispatch].
  destruct (inflight w) as [| n]; [lia |].
  assert (Hr : Js.truthy (apiResult (hooks w)) = false).
  { destruct (Js.truthy (apiResult (hooks w))); [| reflexivity].
    destruct (Hres eq_refl). congruence. }
  destruct o as [| [|] [data |]]; try discriminate Hfail;
    unfold apply, errorText, panel, submissionStatus; cbn;
    rewrite ?Hsub, ?Hr; cbn; repeat split.
Qed.

(** C6: the code at the failing input.  A filled form is submitted and
    the gateway answers with a non-success status (or the transport
    fails).  The status becomes Failed, the message is stored in [error],
    nothing is written to storage, nothing navigates, the form is rendered
    again and a further submit issues a request -- but no alternative of
    the render that reads [error] is shown: the message never reaches the
    user. *)
Theorem failed_submission_shows_no_error :
  submissionStatus
    (hooks (fst (run opened (fill_radiant ++ [Submit; Settles (Responded false None)]))))
  = Failed /\
  error
    (hooks (fst (run opened (fill_radiant ++ [Submit; Settles (Responded false None)]))))
  = Some FAILURE_MESSAGE /\
  persistence
    (snd (run opened (fill_radiant ++ [Submit; Settles (Responded false None)])))
  = [] /\
  panel
    (hooks (fst (run opened (fill_radiant ++ [Submit; Settles (Responded false None)]))))
  = Form /\
  fetches
    (snd (dispatch
            (fst (run opened (fill_radiant ++ [Submit; Settles (Responded false None)])))
            Submit))
  = 1%nat /\
  errorText
    (hooks (fst (run opened (fill_radiant ++ [Submit; Settles (Responded false None)]))))
  = None /\
  errorText
    (hooks (fst (run opened (fill_radiant ++ [Submit; Settles NetworkError]))))
  = None.
Proof. repeat split; vm_compute; reflexivity. Qed.

(** ** Acknowledgment, storage and navigation *)

Lemma acknowledged_hides_controls (w : World) :
  acknowledged w -> formShown w = false /\ toastShown (hooks w) = false.
Proof.
  intros (Ht & Hs & Hr). unfold formShown, toastShown, panel.
  rewrite Ht, Hs, Hr. cbn. split; [apply andb_false_r | reflexivity].
Qed.

(** Once the placement is acknowledged no event has any effect. *)
Lemma acknowledged_is_final (w : World) (ev : UIEvent) :
  consistent w -> acknowledged w ->
  snd (dispatch w ev) = [] /\ acknowledged (fst (dispatch w ev)).
Proof.
  intros [Hn Hres] Hack.
  destruct (acknowledged_hides_controls w Hack) as [Hform Htoast].
  destruct ev; cbn [dispatch]; unfold submitEnabled;
    rewrite ?Hform, ?Htoast, ?andb_false_r; cbn [andb fst snd];
    try (split; [reflexivity | exact Hack]).
  destruct Hack as (Ht & Hs & Hr). destruct (Hres Hr) as [_ Hl].
  rewrite Hl in Hn. rewrite Hn. split; [reflexivity | now repeat split].
Qed.

(** One event either performs no storage write and no navigation, or it
    is the acknowledgment: one write, then one navigation. *)
Lemma dispatch_persistence (w : World) (ev : UIEvent) :
  consistent w ->
  persistence (snd (dispatch w ev)) = [] \/
  (persistence (snd (dispatch w ev)) =
     [LocalStorageSetItem STORAGE_KEY (apiResult (hooks w));
      SetLocationHref CAREER_URL] /\
   Js.truthy (apiResult (hooks w)) = true /\
   acknowledged (fst (dispatch w ev))).
Proof.
  intros [Hn Hres]. destruct ev; cbn [dispatch].
  - now left.
  - left. now destruct (formShown w).
  - left. now destruct (formShown w).
  - left. now destruct (formShown w && divisionRendered (hooks w)).
  - left. now destruct (formShown w && negb (experienceDisabled (hooks w))).
  - left. now destruct (submitEnabled w).
  - destruct (show w && toastShown (hooks w)) eqn:E; [| now left].
    right. apply andb_true_iff in E as [_ E]. unfold toastShown in E.
    apply andb_true_iff in E as [_ Hr]. destruct (Hres Hr) as [Hs _].
    unfold apply, handleToastConfirm. rewrite Hr. cbn.
    repeat split; assumption.
  - left. destruct (inflight w); [reflexivity |].
    now destruct o as [| [|] [data |]].
Qed.

Lemma persistence_app (e1 e2 : list Effect) :
  persistence (e1 ++ e2) = persistence e1 ++ persistence e2.
Proof. apply List.filter_app. Qed.

Lemma run_after_acknowledged (evs : list UIEvent) :
  forall w, consistent w -> acknowledged w -> snd (run w evs) = [].
Proof.
  induction evs as [| ev evs IH]; intros w Hc Hack.
  - reflexivity.
  - rewrite run_cons_snd.
    destruct (acknowledged_is_final w ev Hc Hack) as [-> Hack'].
    apply IH; [now apply dispatch_consistent | exact Hack'].
Qed.

Lemma run_persistence (evs : list UIEvent) :
  forall w, consistent w ->
    persistence (snd (run w evs)) = [] \/
    exists v, Js.truthy v = true /\
      persistence (snd (run w evs)) =
        [LocalStorageSetItem STORAGE_KEY v; SetLocationHref CAREER_URL].
Proof.
  induction evs as [| ev evs IH]; intros w Hc.
  - now left.
  - rewrite run_cons_snd, persistence_app.
    pose proof (dispatch_consistent w ev Hc) as Hc'.
    destruct (dispatch_persistence w ev Hc) as [-> | (-> & Hr & Hack)].
    + apply (IH _ Hc').
    + right. exists (apiResult (hooks w)). split; [exact Hr |].
      now rewrite (run_after_acknowledged evs _ Hc' Hack).
Qed.

(** C9: when the user presses OK on the toast of a successful placement,
    the effects are, in this order, one [localStorage.setItem] of the whole
    [apiResult] under the key 'valorantCareer' and one assignment of
    '/career' to the location; the toast is gone afterwards, so pressing
    again does nothing.  Along every sequence of events the storage writes
    and navigations are either none or exactly that pair. *)
Theorem acknowledgment_stores_then_navigates :
  (forall w : World,
      show w = true ->
      toastShown (hooks w) = true ->
      snd (dispatch w ToastOK) =
        [LocalStorageSetItem STORAGE_KEY (apiResult (hooks w));
         SetLocationHref CAREER_URL] /\
      toastShown (hooks (fst (dispatch w ToastOK))) = false /\
      snd (dispatch (fst (dispatch w ToastOK)) ToastOK) = []) /\
  (forall evs : list UIEvent,
      persistence (snd (run opened evs)) = [] \/
      exists v, Js.truthy v = true /\
        persistence (snd (run opened evs)) =
          [LocalStorageSetItem STORAGE_KEY v; SetLocationHref CAREER_URL]).
Proof.
  split.
  - intros w Hshow Htoast.
    assert (Hr : Js.truthy (apiResult (hooks w)) = true).
    { unfold toastShown in Htoast. now apply andb_true_iff in Htoast. }
    cbn [dispatch]. rewrite Hshow, Htoast. cbn [andb].
    unfold apply, handleToastConfirm. rewrite Hr. cbn.
    rewrite andb_false_r. repeat split.
  - intros evs. apply run_persistence, opened_consistent.
Qed.

Lemma acknowledgment_stores_then_navigates_witness :
  toastShown
    (hooks (fst (run opened
                   (fill_radiant ++ [Submit; Settles (Responded true (Some placement))]))))
  = true /\
  snd (dispatch
         (fst (run opened
                 (fill_radiant ++ [Submit; Settles (Responded true (Some placement))])))
         ToastOK)
  = [LocalStorageSetItem "valorantCareer" placement; SetLocationHref "/career"].
Proof.
  destruct acknowledgment_stores_then_navigates as [Hack _].
  split; [vm_compute; reflexivity |].
  apply (Hack (fst (run opened
                      (fill_radiant ++ [Submit; Settles (Responded true (Some placement))]))));
    vm_compute; reflexivity.
Defined.

(** C10: when [handleToastConfirm] runs on a render whose [apiResult] is
    [null] (or any other falsy value), it writes nothing to storage and
    does not navigate: it performs no effect at all, and the only hook it
    changes is [showToast], set to false. *)
Theorem confirm_without_result_only_dismisses (c h : Hooks) :
  Js.truthy (apiResult c) = false ->
  handleToastConfirm c h = setShowToast false h /\
  snd (handleToastConfirm c h) = [] /\
  showToast (snd (fst (handleToastConfirm c h))) = false.
Proof.
  intros Hr. unfold handleToastConfirm. rewrite Hr. repeat split.
Qed.

Lemma confirm_without_result_only_dismisses_witness :
  apiResult initialHooks = Js.JNull /\
  snd (handleToastConfirm initialHooks initialHooks) = [].
Proof.
  split; [reflexivity |].
  apply (confirm_without_result_only_dismisses initialHooks initialHooks).
  reflexivity.
Defined.

End IntakeFormProperties.

(** * Further properties of the milestone stepper *)
Section StepperSequences.
Import Landing.

Lemma throttled_only_while_locked_witness :
  bodyOverflowHidden (run mounted [mkDelivery 1000 forward]) = true.
Proof.
  apply (throttled_only_while_locked (run mounted [mkDelivery 1000 forward])
           (mkDelivery 1100 forward)).
  - apply reachable_run, reach_mounted.
  - vm_compute. discriminate.
  - reflexivity.
Defined.

Lemma flushEffects_lastScroll (prev st : State) :
  lastScroll (flushEffects prev st) = lastScroll st.
Proof.
  unfold flushEffects. destruct (activeIdx st =? activeIdx prev); reflexivity.
Qed.

Lemma flushEffects_overflow (prev st : State) :
  bodyOverflowHidden (flushEffects prev st) = bodyOverflowHidden st.
Proof.
  unfold flushEffects. destruct (activeIdx st =? activeIdx prev); reflexivity.
Qed.

Lemma step_throttled (st : State) (d : Delivery) :
  throttled d st = true -> step st d = (st, []).
Proof.
  intros Hthr. unfold step, handleWheel. unfold throttled in Hthr.
  rewrite Hthr. unfold flushEffects. now rewrite Z.eqb_refl.
Qed.

Lemma step_accepted (st : State) (d : Delivery) :
  throttled d st = false ->
  activeIdx (fst (step st d)) = nextIdx (event d) (activeIdx st) /\
  lastScroll (fst (step st d)) = now d /\
  bodyOverflowHidden (fst (step st d)) = true /\
  snd (step st d) = [ScrollToTop; PreventDefault].
Proof.
  intros Hacc. unfold step, handleWheel. unfold throttled in Hacc.
  rewrite Hacc. cbn [fst snd].
  rewrite flushEffects_activeIdx, flushEffects_lastScroll, flushEffects_overflow.
  repeat split.
Qed.

Lemma nextIdx_moves_one (e : WheelEvent) (idx : Z) :
  Z.abs (nextIdx e idx - idx) <= 1.
Proof.
  unfold nextIdx.
  destruct (Js.gt_zero (deltaY e));
    [destruct (idx <? milestones_length - 1) | destruct (idx >? 0)]; lia.
Qed.

(** Deliveries that all come too early change nothing. *)
Lemma run_all_throttled (ds : list Delivery) (st : State) :
  (forall d, In d ds -> now d - lastScroll st < SCROLL_THROTTLE_MS) ->
  run st ds = st /\ effectsOf st ds = [].
Proof.
  induction ds as [| d ds IH]; intros Hall; [now split |].
  assert (Hthr : throttled d st = true).
  { unfold throttled. apply Z.ltb_lt. apply Hall. now left. }
  cbn [run effectsOf]. rewrite (step_throttled st d Hthr). cbn [fst snd app].
  apply IH. intros d' Hin. apply Hall. now right.
Qed.

(** X1: of any events whose timestamps all lie within one window shorter
    than [SCROLL_THROTTLE_MS], in whatever order, at most one is accepted:
    at most one scroll reset and one [preventDefault] are performed and the
    index ends at most one step from where it was. *)
Theorem one_step_per_throttle_window (st : State) (ds : list Delivery) (t : Z) :
  (forall d, In d ds -> t <= now d < t + SCROLL_THROTTLE_MS) ->
  (List.length (effectsOf st ds) <= 2)%nat /\
  Z.abs (activeIdx (run st ds) - activeIdx st) <= 1.
Proof.
  revert st. induction ds as [| d ds IH]; intros st Hwin.
  - cbn. split; lia.
  - cbn [run effectsOf]. destruct (throttled d st) eqn:Hthr.
    + rewrite (step_throttled st d Hthr). cbn [fst snd app].
      apply IH. intros d' Hin. apply Hwin. now right.
    + destruct (step_accepted st d Hthr) as (Hidx & Hlast & _ & Heffs).
      assert (Hrest : forall d', In d' ds ->
                now d' - lastScroll (fst (step st d)) < SCROLL_THROTTLE_MS).
      { intros d' Hin. rewrite Hlast.
        pose proof (Hwin d (or_introl eq_refl)).
        pose proof (Hwin d' (or_intror Hin)). lia. }
      destruct (run_all_throttled ds _ Hrest) as [-> ->].
      rewrite Heffs, Hidx. split; [cbn; lia | apply nextIdx_moves_one].
Qed.

Lemma one_step_per_throttle_window_witness :
  (List.length
     (effectsOf mounted
        [mkDelivery 1000 forward; mkDelivery 1100 forward;
         mkDelivery 1249 forward]) <= 2)%nat /\
  Z.abs (activeIdx (run mounted
                      [mkDelivery 1000 forward; mkDelivery 1100 forward;
                       mkDelivery 1249 forward])
         - activeIdx mounted) <= 1.
Proof.
  apply (one_step_per_throttle_window mounted _ 1000).
  intros d [<- | [<- | [<- | []]]]; vm_compute; split; congruence.
Defined.

(** The index never gets ahead of the accepted forward events. *)
Lemma run_forwardSteps (ds : list Delivery) :
  forall st,
    activeIdx (run st ds) <= activeIdx st + Z.of_nat (forwardSteps st ds).
Proof.
  induction ds as [| d ds IH]; intros st; cbn [run forwardSteps].
  - cbn. lia.
  - specialize (IH (fst (step st d))).
    rewrite step_activeIdx in IH.
    destruct (throttled d st); cbn [negb andb] in *; [cbn [Nat.add]; lia |].
    unfold nextIdx in IH.
    destruct (Js.gt_zero (deltaY (event d)));
      [destruct (activeIdx st <? milestones_length - 1)
      | destruct (activeIdx st >? 0)]; lia.
Qed.

Lemma run_keeps_flag (ds : list Delivery) :
  forall st,
    canStart st = (activeIdx st =? milestones_length - 1) ->
    canStart (run st ds) = (activeIdx (run st ds) =? milestones_length - 1).
Proof.
  induction ds as [| d ds IH]; intros st Hflag; cbn [run].
  - exact Hflag.
  - apply IH. now apply step_keeps_flag.
Qed.

(** X2: the start button cannot be enabled without five accepted forward
    events: whatever events arrive after mounting, [canStart] is true only
    if at least five of them passed the throttle guard with a positive
    delta. *)
Theorem start_needs_five_forward_steps (ds : list Delivery) :
  canStart (run mounted ds) = true ->
  (5 <= forwardSteps mounted ds)%nat.
Proof.
  intros Hstart.
  rewrite (run_keeps_flag ds mounted eq_refl) in Hstart.
  apply Z.eqb_eq in Hstart.
  pose proof (run_forwardSteps ds mounted) as Hle.
  rewrite Hstart in Hle. cbn in Hle. lia.
Qed.

Lemma start_needs_five_forward_steps_witness :
  (5 <= forwardSteps mounted (spaced_forwards 5))%nat.
Proof.
  apply (start_needs_five_forward_steps (spaced_forwards 5)).
  vm_compute. reflexivity.
Defined.

Lemma spaced_not_throttled (st : State) (d : Delivery) :
  lastScroll st + SCROLL_THROTTLE_MS <= now d -> throttled d st = false.
Proof. intros H. unfold throttled. apply Z.ltb_ge. lia. Qed.

(** X3: [k] events, each at least [SCROLL_THROTTLE_MS] after the previous
    one, all with a positive delta, move the index from [i] to
    [min (i + k) (N - 1)]; all with a delta that is not positive, to
    [max (i - k) 0]. *)
Theorem spaced_events_clamp (st : State) (ds : list Delivery) :
  0 <= activeIdx st <= milestones_length - 1 ->
  spaced (lastScroll st) ds ->
  ((forall d, In d ds -> Js.gt_zero (deltaY (event d)) = true) ->
   activeIdx (run st ds) =
   Z.min (activeIdx st + Z.of_nat (List.length ds)) (milestones_length - 1)) /\
  ((forall d, In d ds -> Js.gt_zero (deltaY (event d)) = false) ->
   activeIdx (run st ds) =
   Z.max (activeIdx st - Z.of_nat (List.length ds)) 0).
Proof.
  revert st. induction ds as [| d ds IH]; intros st Hrange Hsp.
  - cbn [run List.length]. split; intros _; lia.
  - destruct Hsp as [Hgap Hsp].
    pose proof (spaced_not_throttled st d Hgap) as Hacc.
    destruct (step_accepted st d Hacc) as (Hidx & Hlast & _ & _).
    rewrite <- Hlast in Hsp.
    pose proof (step_bounds st d Hrange) as Hrange'.
    destruct (IH _ Hrange' Hsp) as [IHf IHb].
    cbn [run List.length]. rewrite Nat2Z.inj_succ.
    split; intros Hdir.
    + rewrite IHf by (intros d' Hin; apply Hdir; now right).
      rewrite Hidx. unfold nextIdx. rewrite (Hdir d (or_introl eq_refl)).
      destruct (Z.ltb_spec (activeIdx st) (milestones_length - 1)); lia.
    + rewrite IHb by (intros d' Hin; apply Hdir; now right).
      rewrite Hidx. unfold nextIdx. rewrite (Hdir d (or_introl eq_refl)).
      destruct (Z.gtb_spec (activeIdx st) 0); lia.
Qed.

Lemma spaced_events_clamp_witness :
  activeIdx (run mounted
               [mkDelivery 1000 forward; mkDelivery 1250 forward;
                mkDelivery 1500 forward]) =
  Z.min (activeIdx mounted + 3) (milestones_length - 1).
Proof.
  apply (spaced_events_clamp mounted
           [mkDelivery 1000 forward; mkDelivery 1250 forward;
            mkDelivery 1500 forward]).
  - vm_compute. split; congruence.
  - cbn. unfold SCROLL_THROTTLE_MS. repeat split; lia.
  - intros d [<- | [<- | [<- | []]]]; reflexivity.
Defined.

(** X4: an accepted forward event followed by an accepted backward event
    returns to the same milestone, except from the last milestone, where
    the pair ends one below; a backward event followed by a forward one
    returns, except from the first milestone, where the pair ends at 1. *)
Theorem there_and_back (st : State) (d1 d2 : Delivery) :
  0 <= activeIdx st <= milestones_length - 1 ->
  throttled d1 st = false ->
  throttled d2 (fst (step st d1)) = false ->
  (Js.gt_zero (deltaY (event d1)) = true ->
   Js.gt_zero (deltaY (event d2)) = false ->
   activeIdx (run st [d1; d2]) =
   if activeIdx st =? milestones_length - 1
   then milestones_length - 2 else activeIdx st) /\
  (Js.gt_zero (deltaY (event d1)) = false ->
   Js.gt_zero (deltaY (event d2)) = true ->
   activeIdx (run st [d1; d2]) =
   if activeIdx st =? 0 then 1 else activeIdx st).
Proof.
  intros Hrange Hacc1 Hacc2. cbn [run].
  destruct (step_accepted st d1 Hacc1) as (Hidx1 & _).
  destruct (step_accepted _ d2 Hacc2) as (Hidx2 & _).
  rewrite Hidx2, Hidx1. unfold nextIdx, milestones_length in *. cbn in *.
  split; intros -> ->.
  - destruct (Z.ltb_spec (activeIdx st) 5), (Z.eqb_spec (activeIdx st) 5);
      try lia.
    + destruct (Z.gtb_spec (activeIdx st + 1) 0); lia.
    + destruct (Z.gtb_spec (activeIdx st) 0); lia.
  - destruct (Z.gtb_spec (activeIdx st) 0), (Z.eqb_spec (activeIdx st) 0);
      try lia.
    + destruct (Z.ltb_spec (activeIdx st - 1) 5); lia.
    + destruct (Z.ltb_spec (activeIdx st) 5); lia.
Qed.

Lemma there_and_back_witness :
  activeIdx (run (run mounted (spaced_forwards 5))
               [mkDelivery 9000 forward; mkDelivery 9500 backward]) =
  milestones_length - 2.
Proof.
  apply (there_and_back (run mounted (spaced_forwards 5))
           (mkDelivery 9000 forward) (mkDelivery 9500 backward));
    vm_compute; try reflexivity.
  split; congruence.
Defined.

Lemma step_lastScroll (st : State) (d : Delivery) :
  lastScroll (fst (step st d)) = lastScroll st \/
  lastScroll st + SCROLL_THROTTLE_MS <= lastScroll (fst (step st d)).
Proof.
  destruct (throttled d st) eqn:Hthr.
  - left. now rewrite (step_throttled st d Hthr).
  - right. destruct (step_accepted st d Hthr) as (_ & -> & _).
    unfold throttled in Hthr. apply Z.ltb_ge in Hthr. lia.
Qed.

(** X5: the timestamp the throttle compares with never decreases, whatever
    [Date.now()] returns from one event to the next; when it changes, it
    grows by at least [SCROLL_THROTTLE_MS]. *)
Theorem lastScroll_never_decreases (st : State) (ds : list Delivery) :
  lastScroll st <= lastScroll (run st ds) /\
  (lastScroll (run st ds) = lastScroll st \/
   lastScroll st + SCROLL_THROTTLE_MS <= lastScroll (run st ds)).
Proof.
  revert st. induction ds as [| d ds IH]; intros st; cbn [run].
  - split; [lia | now left].
  - destruct (IH (fst (step st d))) as [Hle Hgap].
    pose proof (step_lastScroll st d) as Hstep.
    unfold SCROLL_THROTTLE_MS in *. lia.
Qed.

(** The body is locked after a sequence exactly when it was locked before
    or some event of the sequence was accepted. *)
Lemma run_overflow (ds : list Delivery) :
  forall st,
    bodyOverflowHidden (run st ds) =
    bodyOverflowHidden st ||
    match effectsOf st ds with [] => false | _ :: _ => true end.
Proof.
  induction ds as [| d ds IH]; intros st; cbn [run effectsOf].
  - now rewrite orb_false_r.
  - rewrite IH. destruct (throttled d st) eqn:Hthr.
    + now rewrite (step_throttled st d Hthr).
    + destruct (step_accepted st d Hthr) as (_ & _ & -> & ->).
      cbn. now rewrite orb_true_r.
Qed.

(** X6: nothing in the component resets [document.body.style.overflow]: a
    locked body stays locked under every sequence of events, and after
    mounting the body is locked exactly when some event was accepted. *)
Theorem body_lock_is_never_released :
  (forall st ds,
      bodyOverflowHidden st = true -> bodyOverflowHidden (run st ds) = true) /\
  (forall ds,
      bodyOverflowHidden (run mounted ds) = true <-> effectsOf mounted ds <> []).
Proof.
  split.
  - intros st ds Hlock. now rewrite run_overflow, Hlock.
  - intros ds. rewrite run_overflow. cbn [mounted syncCanStart firstRender
      bodyOverflowHidden orb].
    destruct (effectsOf mounted ds); split; congruence.
Qed.

Lemma body_lock_is_never_released_witness :
  bodyOverflowHidden
    (run (run mounted [mkDelivery 1000 forward]) [mkDelivery 1001 backward])
  = true.
Proof.
  destruct body_lock_is_never_released as [Hkeep _].
  apply Hkeep. vm_compute. reflexivity.
Defined.

Lemma highlighted_at (st : State) :
  0 <= activeIdx st <= milestones_length - 1 ->
  List.filter (fun b : bool => b) (highlighted st) = [true] /\
  List.nth_error (highlighted st) (Z.to_nat (activeIdx st)) = Some true.
Proof.
  unfold highlighted, milestones_length. cbn -[Z.eqb Z.to_nat Z.of_nat].
  intros Hrange.
  assert (Hcases : activeIdx st = 0 \/ activeIdx st = 1 \/ activeIdx st = 2 \/
                   activeIdx st = 3 \/ activeIdx st = 4 \/ activeIdx st = 5)
    by lia.
  destruct Hcases as [-> | [-> | [-> | [-> | [-> | ->]]]]]; split; reflexivity.
Qed.

(** X8: after any sequence of wheel events exactly one milestone is drawn
    as active, and it is the one at position [activeIdx]. *)
Theorem one_milestone_highlighted (ds : list Delivery) :
  List.filter (fun b : bool => b) (highlighted (run mounted ds)) = [true] /\
  List.nth_error (highlighted (run mounted ds))
                 (Z.to_nat (activeIdx (run mounted ds))) = Some true.
Proof.
  apply highlighted_at. apply run_bounds. vm_compute. split; discriminate.
Qed.

End StepperSequences.

(** * Further properties of the intake form *)
Section IntakeFormSequences.
Import LandingModal.

Lemma formShown_hidden (w : World) : show w = false -> formShown w = false.
Proof. intros Hs. unfold formShown. now rewrite Hs. Qed.

(** X9: while [show] is false the modal renders nothing, so no user event
    changes the hooks or performs an effect; a request issued earlier
    still settles, with the same result as if the modal were shown. *)
Theorem hidden_modal_ignores_user :
  (forall (w : World) (ev : UIEvent),
      show w = false -> userEvent ev = true -> dispatch w ev = (w, [])) /\
  (forall (b : bool) (h : Hooks) (n : nat) (o : FetchOutcome),
      hooks (fst (dispatch (mkWorld b h n) (Settles o))) =
      hooks (fst (dispatch (mkWorld true h n) (Settles o))) /\
      snd (dispatch (mkWorld b h n) (Settles o)) =
      snd (dispatch (mkWorld true h n) (Settles o))).
Proof.
  split.
  - intros w ev Hs Hu.
    pose proof (formShown_hidden w Hs) as Hf.
    destruct ev; try discriminate Hu; cbn [dispatch]; unfold submitEnabled;
      rewrite ?Hf, ?Hs; reflexivity.
  - intros b h n o. cbn [dispatch inflight]. destruct n; [now split |].
    destruct o as [| [|] [data |]]; split; reflexivity.
Qed.

Lemma hidden_modal_ignores_user_witness :
  dispatch (fst (run opened (fill_radiant ++ [ParentShows false]))) Submit =
  (fst (run opened (fill_radiant ++ [ParentShows false])), []).
Proof.
  destruct hidden_modal_ignores_user as [Hignore _].
  apply Hignore; reflexivity.
Defined.

(** What an effect of a single event can be. *)
Lemma dispatch_effect_shape (w : World) (ev : UIEvent) (e : Effect) :
  In e (snd (dispatch w ev)) ->
  match e with
  | Fetch url body =>
      url = CREATE_CAREER_URL /\ submitEnabled w = true /\
      body = requestBody (hooks w)
  | LocalStorageSetItem key v =>
      key = STORAGE_KEY /\ v = apiResult (hooks w) /\ Js.truthy v = true
  | SetLocationHref url =>
      url = CAREER_URL /\ Js.truthy (apiResult (hooks w)) = true
  | _ => True
  end.
Proof.
  destruct ev; cbn [dispatch].
  - intros [].
  - destruct (formShown w); intros [].
  - destruct (formShown w); intros [].
  - destruct (formShown w && divisionRendered (hooks w)); intros [].
  - destruct (formShown w && negb (experienceDisabled (hooks w))); intros [].
  - destruct (submitEnabled w) eqn:He; [| intros []].
    cbn. intros [<- | [<- | [<- | []]]]; auto.
  - destruct (show w && toastShown (hooks w)) eqn:E; [| intros []].
    apply andb_true_iff in E as [_ E]. unfold toastShown in E.
    apply andb_true_iff in E as [_ Hr].
    unfold apply, handleToastConfirm. rewrite Hr. cbn.
    intros [<- | [<- | []]]; auto.
  - destruct (inflight w); [intros [] |].
    destruct o as [| [|] [data |]]; intros [].
Qed.

Lemma formValid_inv (h : Hooks) :
  formValid h = true ->
  ageSatisfied (age h) = true /\
  Js.truthy_string (rank h) = true /\
  (divisionRendered h = true -> Js.truthy_string (division h) = true) /\
  (experienceDisabled h = false -> Js.truthy_string (experience h) = true).
Proof.
  unfold formValid, invalidControls, experienceShown.
  destruct (ageSatisfied (age h)); [| discriminate].
  destruct (Js.truthy_string (rank h)); [| discriminate].
  destruct (divisionRendered h), (Js.truthy_string (division h));
    try discriminate;
    destruct (experienceDisabled h), (Js.truthy_string (experience h));
    try discriminate; intros _; repeat split; congruence.
Qed.

Lemma ageNumber_range (s : string) (n : Z) :
  ageNumber s = Some n -> 16 <= n <= 99.
Proof.
  unfold ageNumber. destruct (parseFloatingPoint s) as [d |]; [| discriminate].
  unfold roundsToAge.
  set (m := Qfloor (valueOf d + (1 # 2))).
  destruct ((16 <=? m) && (m <=? 99)) eqn:Hrange; [| discriminate].
  destruct (Qle_bool (inject_Z m - halfGapBelow m) (valueOf d));
    [| discriminate].
  destruct (Qle_bool (valueOf d) (inject_Z m + halfUlp m)); [| discriminate].
  intros [= <-]. apply andb_true_iff in Hrange. lia.
Qed.

Lemma submit_body_wellFormed (w : World) :
  submitEnabled w = true -> wellFormed (requestBody (hooks w)).
Proof.
  intros He. unfold submitEnabled in He.
  apply andb_true_iff in He as [_ Hv].
  destruct (formValid_inv _ Hv) as (Hage & Hrank & Hdiv & Hexp).
  unfold wellFormed, requestBody. cbn [age_of current_rank past_experience
    division_field].
  repeat split.
  - unfold ageSatisfied in Hage. apply andb_true_iff in Hage as [_ Hage].
    destruct (ageNumber (age (hooks w))) as [n |] eqn:Hn; [| discriminate].
    exists n. split; [reflexivity | now apply (ageNumber_range _ _ Hn)].
  - now apply truthy_string_iff.
  - intros ->. reflexivity.
  - intros Htop. apply String.eqb_neq in Htop. rewrite Htop.
    exists (division (hooks w)). split; [reflexivity |].
    apply truthy_string_iff. apply Hdiv. unfold divisionRendered.
    now rewrite Hrank, Htop.
  - intros Hidx. apply truthy_string_iff. apply Hexp.
    unfold experienceDisabled. now rewrite Hidx.
Qed.

(** X10: every request the modal sends, along every sequence of events from
    any state, goes to the create-career address and carries an age that
    satisfies the number input -- a valid floating-point number whose
    value, as a double, is an integer from 16 to 99 --, a selected rank,
    [null] as division for Radiant and a selected division otherwise, and
    a selected experience whenever the rank leaves the experience select
    enabled. *)
Theorem every_request_is_well_formed
    (w : World) (evs : list UIEvent) (url : string) (body : CareerRequest) :
  In (Fetch url body) (snd (run w evs)) ->
  url = CREATE_CAREER_URL /\ wellFormed body.
Proof.
  revert w. induction evs as [| ev evs IH]; intros w Hin; [destruct Hin |].
  rewrite run_cons_snd in Hin. apply in_app_or in Hin as [Hin | Hin].
  - apply dispatch_effect_shape in Hin as (-> & He & ->).
    split; [reflexivity | now apply submit_body_wellFormed].
  - apply (IH _ Hin).
Qed.

Lemma every_request_is_well_formed_witness :
  CREATE_CAREER_URL = CREATE_CAREER_URL /\
  wellFormed (mkRequest "2e1" "Gold" "" (Some "1")).
Proof.
  apply (every_request_is_well_formed opened
           [ChangeAge "2e1"; ChangeRank "Gold"; ChangeDivision "1"; Submit]).
  vm_compute. right. right. left. reflexivity.
Defined.

Lemma dispatch_apiResult (w : World) (ev : UIEvent) :
  apiResult (hooks (fst (dispatch w ev))) = apiResult (hooks w) \/
  apiResult (hooks (fst (dispatch w ev))) = Js.JNull \/
  ev = Settles (Responded true (Some (apiResult (hooks (fst (dispatch w ev)))))).
Proof.
  destruct ev; cbn [dispatch].
  - now left.
  - left. now destruct (formShown w).
  - left. now destruct (formShown w).
  - left. now destruct (formShown w && divisionRendered (hooks w)).
  - left. now destruct (formShown w && negb (experienceDisabled (hooks w))).
  - destruct (submitEnabled w); [right; now left | now left].
  - left. destruct (show w && toastShown (hooks w)); [| reflexivity].
    unfold apply, handleToastConfirm.
    now destruct (Js.truthy (apiResult (hooks w))).
  - destruct (inflight w); [now left |].
    destruct o as [| [|] [data |]]; try (now left). right. right. reflexivity.
Qed.

(** Whatever is stored was, at that time, the truthy [apiResult]; and
    [apiResult] only ever holds what it held at the start or the body of a
    successful response. *)
Lemma run_storage_provenance (evs : list UIEvent) :
  forall (w : World) (P : Js.json -> Prop),
    (Js.truthy (apiResult (hooks w)) = true -> P (apiResult (hooks w))) ->
    forall e, In e (snd (run w evs)) ->
      match e with
      | LocalStorageSetItem key v =>
          key = STORAGE_KEY /\ Js.truthy v = true /\
          (P v \/ In (Settles (Responded true (Some v))) evs)
      | SetLocationHref url =>
          url = CAREER_URL /\
          exists v, Js.truthy v = true /\
                    (P v \/ In (Settles (Responded true (Some v))) evs)
      | _ => True
      end.
Proof.
  induction evs as [| ev evs IH]; intros w P HP e Hin; [destruct Hin |].
  rewrite run_cons_snd in Hin. apply in_app_or in Hin as [Hin | Hin].
  - apply dispatch_effect_shape in Hin.
    destruct e; try exact I.
    + destruct Hin as (-> & -> & Hr). repeat split; auto.
    + destruct Hin as (-> & Hr). split; [reflexivity |].
      exists (apiResult (hooks w)). auto.
  - specialize (IH (fst (dispatch w ev))
                  (fun v => P v \/ ev = Settles (Responded true (Some v)))).
    assert (HP' : Js.truthy (apiResult (hooks (fst (dispatch w ev)))) = true ->
                  P (apiResult (hooks (fst (dispatch w ev)))) \/
                  ev = Settles (Responded true
                                  (Some (apiResult (hooks (fst (dispatch w ev))))))).
    { intros Hr. destruct (dispatch_apiResult w ev) as [Heq | [Heq | Heq]].
      - left. rewrite Heq in *. now apply HP.
      - rewrite Heq in Hr. discriminate Hr.
      - now right. }
    specialize (IH HP' e Hin).
    destruct e; try exact I.
    + destruct IH as (-> & Hr & [[Hp | ->] | Hl]); repeat split; auto;
        right; [now left | now right].
    + destruct IH as (-> & v & Hr & [[Hp | ->] | Hl]); split; try reflexivity;
        exists v; split; auto; right; [now left | now right].
Qed.

(** X11: whatever is written to storage is a truthy body of a successful
    response that arrived earlier in the same sequence of events, under the
    key 'valorantCareer'; and a navigation, always to '/career', happens
    only when a successful response arrived.  Without a successful
    response nothing is stored and nothing navigates. *)
Theorem stored_value_came_from_gateway (evs : list UIEvent) :
  (forall key v,
      In (LocalStorageSetItem key v) (snd (run opened evs)) ->
      key = STORAGE_KEY /\ Js.truthy v = true /\
      In (Settles (Responded true (Some v))) evs) /\
  (forall url,
      In (SetLocationHref url) (snd (run opened evs)) ->
      url = CAREER_URL /\
      exists v, In (Settles (Responded true (Some v))) evs).
Proof.
  assert (Hstart : Js.truthy (apiResult (hooks opened)) = true ->
                   (fun _ : Js.json => False) (apiResult (hooks opened)))
    by discriminate.
  split.
  - intros key v Hin.
    destruct (run_storage_provenance evs opened _ Hstart _ Hin)
      as (-> & Hr & [[] | Hl]).
    auto.
  - intros url Hin.
    destruct (run_storage_provenance evs opened _ Hstart _ Hin)
      as (-> & v & _ & [[] | Hl]).
    split; [reflexivity | now exists v].
Qed.

Lemma stored_value_came_from_gateway_witness :
  In (Settles (Responded true (Some placement)))
     (fill_radiant ++ [Submit; Settles (Responded true (Some placement)); ToastOK]).
Proof.
  destruct (stored_value_came_from_gateway
              (fill_radiant ++
               [Submit; Settles (Responded true (Some placement)); ToastOK]))
    as [Hstore _].
  apply (Hstore STORAGE_KEY placement).
  vm_compute. right. right. right. left. reflexivity.
Defined.









(** X14: the experience select is disabled exactly when the rank is a
    non-empty string other than 'Immortal' and 'Radiant' -- the seven lower
    ranks, and also any string that is no rank at all. *)
Theorem experience_disabled_iff (h : Hooks) :
  experienceDisabled h = true <->
  rank h <> "" /\ rank h <> "Immortal" /\ rank h <> "Radiant".
Proof.
  unfold experienceDisabled, Js.indexOf, rankOptions. cbn [Js.indexOf_from].
  rewrite andb_true_iff, truthy_string_iff.
  repeat match goal with
         | |- context [String.eqb ?a (rank h)] =>
             destruct (String.eqb_spec a (rank h)) as [<- | ?]
         end; cbn; split; intros H; repeat split;
    try discriminate; try (destruct H as (? & ? & ?); congruence);
    try (destruct H; congruence).
Qed.

Lemma experience_disabled_iff_witness :
  experienceDisabled (hooks (fst (run opened fill_gold))) = true.
Proof.
  apply (experience_disabled_iff (hooks (fst (run opened fill_gold)))).
  repeat split; vm_compute; discriminate.
Defined.

(** X15: while the toast of a successful placement is shown, the form is
    rendered beneath it; a submit accepted there sets [apiResult] back to
    [null], which removes the toast, writes nothing to storage, does not
    navigate, and issues one new request. *)
Theorem resubmission_under_toast_discards_placement (w : World) :
  consistent w ->
  show w = true ->
  toastShown (hooks w) = true ->
  formShown w = true /\
  (submitEnabled w = true ->
   apiResult (hooks (fst (dispatch w Submit))) = Js.JNull /\
   toastShown (hooks (fst (dispatch w Submit))) = false /\
   persistence (snd (dispatch w Submit)) = [] /\
   fetches (snd (dispatch w Submit)) = 1%nat).
Proof.
  intros [_ Hres] Hshow Htoast.
  unfold toastShown in Htoast. apply andb_true_iff in Htoast as [Hts Hr].
  destruct (Hres Hr) as [Hsub Hl].
  split.
  - unfold formShown, panel. rewrite Hshow, Hsub, Hr, Hts, Hl. reflexivity.
  - intros He. cbn [dispatch]. rewrite He. unfold toastShown. cbn.
    rewrite ?andb_false_r. repeat split.
Qed.

Lemma resubmission_under_toast_discards_placement_witness :
  formShown
    (fst (run opened
            (fill_radiant ++ [Submit; Settles (Responded true (Some placement))])))
  = true.
Proof.
  apply (resubmission_under_toast_discards_placement
           (fst (run opened
                   (fill_radiant ++
                    [Submit; Settles (Responded true (Some placement))])))).
  - apply run_consistent, opened_consistent.
  - reflexivity.
  - reflexivity.
Defined.

(** X16: a change of rank on the rendered form stores the rank and empties
    the division; for a rank other than Radiant the submit is then not
    accepted until a division is chosen again, and a division chosen next
    is stored only when the new rank renders the division select. *)
Theorem rank_change_discards_division (w : World) (v : string) :
  formShown w = true ->
  rank (hooks (fst (dispatch w (ChangeRank v)))) = v /\
  division (hooks (fst (dispatch w (ChangeRank v)))) = "" /\
  (v <> "" -> v <> "Radiant" ->
   submitEnabled (fst (dispatch w (ChangeRank v))) = false) /\
  (forall d : string,
      d <> "" ->
      division (hooks (fst (dispatch (fst (dispatch w (ChangeRank v)))
                             (ChangeDivision d)))) =
      if Js.truthy_string v && negb (String.eqb v "Radiant") then d else "").
Proof.
  intros Hshown. cbn [dispatch]. rewrite Hshown.
  assert (Hpanel : panel (hooks (fst (apply (setRank v;; setDivision "") w)))
                   = panel (hooks w)) by reflexivity.
  assert (Hshown' : formShown (fst (apply (setRank v;; setDivision "") w)) = true).
  { unfold formShown in *. now rewrite Hpanel. }
  repeat split.
  - intros Hv Htop. apply truthy_string_iff in Hv. apply String.eqb_neq in Htop.
    unfold submitEnabled, submitDisabled. cbn. rewrite Hv, Htop. cbn.
    now rewrite andb_false_r.
  - intros d Hd. rewrite Hshown'. unfold divisionRendered. cbn [andb].
    cbn -[String.eqb]. destruct (Js.truthy_string v && negb (String.eqb v "Radiant"));
      reflexivity.
Qed.

Lemma rank_change_discards_division_witness :
  division
    (hooks (fst (dispatch (fst (run opened fill_gold)) (ChangeRank "Silver"))))
  = "".
Proof.
  destruct (rank_change_discards_division
              (fst (run opened fill_gold)) "Silver" eq_refl) as (_ & Hdiv & _).
  exact Hdiv.
Defined.

(** X17: on a rendered form with a satisfied age and a chosen experience,
    selecting Radiant makes the submit acceptable without a division, and
    the request then sent carries [null] as division. *)
Theorem radiant_needs_no_division (w : World) :
  formShown w = true ->
  ageSatisfied (age (hooks w)) = true ->
  experience (hooks w) <> "" ->
  submitEnabled (fst (dispatch w (ChangeRank "Radiant"))) = true /\
  List.map division_field
    (requestsSent (snd (run w [ChangeRank "Radiant"; Submit]))) = [None].
Proof.
  intros Hshown Hage Hexp. apply truthy_string_iff in Hexp.
  assert (Hen : submitEnabled (fst (dispatch w (ChangeRank "Radiant"))) = true).
  { cbn [dispatch]. rewrite Hshown. unfold submitEnabled.
    change (formShown (fst (apply (setRank "Radiant";; setDivision "") w)))
      with (formShown w).
    rewrite Hshown. unfold formValid, invalidControls, experienceShown. cbn.
    now rewrite Hage, Hexp. }
  split; [exact Hen |].
  rewrite !run_cons_snd. cbn [run snd]. rewrite app_nil_r.
  destruct (submit_accepted _ Hen) as [_ ->].
  cbn [dispatch]. rewrite Hshown. reflexivity.
Qed.

Lemma radiant_needs_no_division_witness :
  submitEnabled
    (fst (dispatch (fst (run opened [ChangeAge "20"; ChangeRank "Immortal";
                                     ChangeExperience "Tier 1"]))
            (ChangeRank "Radiant"))) = true.
Proof.
  apply (radiant_needs_no_division
           (fst (run opened [ChangeAge "20"; ChangeRank "Immortal";
                             ChangeExperience "Tier 1"]))).
  - reflexivity.
  - reflexivity.
  - vm_compute. discriminate.
Defined.

End IntakeFormSequences.

(** * Properties of the navigation bar, the shell and the dashboard *)
Section NavigationProperties.

Lemma append_assoc (a b c : string) :
  ((a ++ b) ++ c)%string = (a ++ b ++ c)%string.
Proof. induction a as [| ch a IH]; cbn; [reflexivity | now rewrite IH]. Qed.

Lemma append_truthy (a b : string) :
  Js.truthy_string a = true -> Js.truthy_string (a ++ b) = true.
Proof. destruct a; [discriminate | reflexivity]. Qed.

(** Joining strings none of which is empty. *)
Lemma concat_truthy (sep : string) (xs : list string) :
  Forall (fun s => Js.truthy_string s = true) xs ->
  Js.truthy_string (String.concat sep xs) =
  match xs with [] => false | _ :: _ => true end.
Proof.
  intros Hall. destruct Hall as [| x xs Hx Hxs]; [reflexivity |].
  cbn [String.concat]. destruct xs; [exact Hx | now apply append_truthy].
Qed.

Lemma concat_app (sep : string) (xs ys : list string) :
  String.concat sep (xs ++ ys) =
  match xs, ys with
  | [], _ => String.concat sep ys
  | _, [] => String.concat sep xs
  | _, _ => (String.concat sep xs ++ sep ++ String.concat sep ys)%string
  end.
Proof.
  induction xs as [| x xs IH]; [reflexivity |].
  destruct ys as [| y ys]; [now rewrite app_nil_r |].
  destruct xs as [| x' xs]; [reflexivity |].
  change (String.concat sep ((x :: x' :: xs) ++ y :: ys))
    with (x ++ sep ++ String.concat sep ((x' :: xs) ++ y :: ys))%string.
  rewrite IH.
  change (String.concat sep (x :: x' :: xs))
    with (x ++ sep ++ String.concat sep (x' :: xs))%string.
  now rewrite !append_assoc.
Qed.

Lemma filter_truthy_Forall (xs : list string) :
  Forall (fun s => Js.truthy_string s = true) (List.filter Js.truthy_string xs).
Proof.
  apply Forall_forall. intros s Hin. now apply filter_In in Hin.
Qed.

Lemma classNames_truthy (xs : list string) :
  Js.truthy_string (Navbar.classNames xs) =
  match List.filter Js.truthy_string xs with [] => false | _ :: _ => true end.
Proof. apply concat_truthy, filter_truthy_Forall. Qed.

(** X18: [classNames] of two argument lists put together is the two
    results joined by one space, or the only non-empty one of them: empty
    arguments never contribute a separator. *)
Theorem classNames_app (xs ys : list string) :
  Navbar.classNames (xs ++ ys) =
  if Js.truthy_string (Navbar.classNames xs) then
    if Js.truthy_string (Navbar.classNames ys)
    then (Navbar.classNames xs ++ " " ++ Navbar.classNames ys)%string
    else Navbar.classNames xs
  else Navbar.classNames ys.
Proof.
  rewrite !classNames_truthy. unfold Navbar.classNames.
  rewrite List.filter_app, concat_app.
  destruct (List.filter Js.truthy_string xs), (List.filter Js.truthy_string ys);
    reflexivity.
Qed.

(** X19: [classNames] returns the empty string exactly when every argument
    is the empty string. *)
Theorem classNames_empty_iff (xs : list string) :
  Navbar.classNames xs = "" <-> Forall (fun s => s = "") xs.
Proof.
  split.
  - intros Hempty.
    assert (Hf : List.filter Js.truthy_string xs = []).
    { pose proof (classNames_truthy xs) as Ht. rewrite Hempty in Ht.
      now destruct (List.filter Js.truthy_string xs). }
    apply Forall_forall. intros s Hin.
    destruct (Js.truthy_string s) eqn:E.
    + assert (Hin' : In s (List.filter Js.truthy_string xs))
        by (apply filter_In; now split).
      rewrite Hf in Hin'. destruct Hin'.
    + now destruct s.
  - intros Hall. unfold Navbar.classNames.
    induction Hall as [| s xs -> _ IH]; [reflexivity | exact IH].
Qed.

Lemma classNames_empty_iff_witness :
  Navbar.classNames [""; ""] = "".
Proof.
  apply (classNames_empty_iff [""; ""]). repeat constructor.
Defined.

Lemma navbar_run_cons (p : Navbar.Props) (s : bool) (ev : Navbar.Event)
    (evs : list Navbar.Event) :
  Navbar.run p s (ev :: evs) =
  (fst (Navbar.run p (fst (Navbar.dispatch p s ev)) evs),
   snd (Navbar.dispatch p s ev) ++
   snd (Navbar.run p (fst (Navbar.dispatch p s ev)) evs)).
Proof.
  cbn [Navbar.run]. destruct (Navbar.dispatch p s ev) as [s1 e1]. cbn [fst snd].
  now destruct (Navbar.run p s1 evs).
Qed.

(** X20: with [enableHamburger] false the sidebar never opens, whatever the
    events; and a link is only ever followed from an enabled sidebar, to
    the [href] of one of its entries. *)
Theorem sidebar_needs_hamburger (p : Navbar.Props) :
  (Navbar.hamburgerEnabled p = false ->
   forall evs, Navbar.run p false evs = (false, [])) /\
  (forall s evs target,
      In (Navbar.FollowLink target) (snd (Navbar.run p s evs)) ->
      Navbar.hamburgerEnabled p = true /\
      exists item, In item (Navbar.sidebarLinks p) /\ Navbar.href item = target).
Proof.
  split.
  - intros Hoff evs. induction evs as [| ev evs IH]; [reflexivity |].
    rewrite navbar_run_cons.
    assert (Hd : Navbar.dispatch p false ev = (false, [])).
    { destruct ev; cbn [Navbar.dispatch]; unfold Navbar.sidebarShown;
        rewrite Hoff; reflexivity. }
    rewrite Hd. cbn [fst snd]. now rewrite IH.
  - intros s evs. revert s. induction evs as [| ev evs IH]; intros s target Hin;
      [destruct Hin |].
    rewrite navbar_run_cons in Hin. cbn [snd] in Hin.
    apply in_app_or in Hin as [Hin | Hin]; [| now apply (IH _ _ Hin)].
    destruct ev; cbn [Navbar.dispatch] in Hin.
    + destruct (Navbar.hamburgerEnabled p); destruct Hin.
    + destruct (Navbar.sidebarShown p s); destruct Hin.
    + destruct (Navbar.sidebarShown p s); [| destruct Hin].
      destruct (String.eqb key "Escape"); destruct Hin.
    + destruct (Navbar.sidebarShown p s); destruct Hin.
    + destruct (Navbar.sidebarShown p s) eqn:Hs; [| destruct Hin].
      destruct (List.nth_error (Navbar.sidebarLinks p) i) as [item |] eqn:Hi;
        [| destruct Hin].
      destruct Hin as [Heq | []]. injection Heq as <-.
      unfold Navbar.sidebarShown in Hs. apply andb_true_iff in Hs as [Hen _].
      split; [exact Hen |]. exists item. split; [| reflexivity].
      now apply List.nth_error_In in Hi.
Qed.

Lemma sidebar_needs_hamburger_witness :
  Navbar.hamburgerEnabled (App.navbarProps "navlogo.png" "/career") = true /\
  exists item,
    In item (Navbar.sidebarLinks (App.navbarProps "navlogo.png" "/career")) /\
    Navbar.href item = "/career/tryouts".
Proof.
  destruct (sidebar_needs_hamburger (App.navbarProps "navlogo.png" "/career"))
    as [_ Hlinks].
  apply (Hlinks false [Navbar.ClickHamburger; Navbar.ClickSidebarLink 1]).
  vm_compute. left. reflexivity.
Defined.

(** X21: for every pathname at most one entry of the navigation handed to
    the navbar is marked current, and an entry is marked exactly when its
    [href] equals the pathname. *)
Theorem navigation_marks_the_current_page (pathname : string) :
  (List.length (List.filter Navbar.isCurrent (App.navigation pathname)) <= 1)%nat /\
  (forall item,
      In item (App.navigation pathname) ->
      (Navbar.isCurrent item = true <-> Navbar.href item = pathname)).
Proof.
  split.
  - unfold App.navigation.
    destruct (App.isCareer pathname); cbn -[String.eqb].
    + repeat match goal with
             | |- context [String.eqb pathname ?a] =>
                 destruct (String.eqb_spec pathname a) as [-> | ?]
             end; cbn; try lia; try congruence.
    + destruct (String.eqb pathname "/"); cbn; lia.
  - intros item Hin. unfold App.navigation in Hin.
    apply in_map_iff in Hin as (src & <- & _).
    unfold Navbar.isCurrent, App.markCurrent. cbn [Navbar.current Navbar.href].
    rewrite String.eqb_eq. split; congruence.
Qed.

Lemma navigation_marks_the_current_page_witness :
  Navbar.isCurrent (Navbar.mkItem "Ranked" "/career/ranked" (Some true)) = true <->
  Navbar.href (Navbar.mkItem "Ranked" "/career/ranked" (Some true)) = "/career/ranked".
Proof.
  destruct (navigation_marks_the_current_page "/career/ranked") as [_ Hiff].
  apply Hiff. vm_compute. right. left. reflexivity.
Defined.

Lemma run_navigation_target (evs : list LandingModal.UIEvent) :
  forall w url,
    In (LandingModal.SetLocationHref url) (snd (LandingModal.run w evs)) ->
    url = LandingModal.CAREER_URL.
Proof.
  induction evs as [| ev evs IH]; intros w url Hin; [destruct Hin |].
  rewrite run_cons_snd in Hin. apply in_app_or in Hin as [Hin | Hin].
  - now apply dispatch_effect_shape in Hin.
  - apply (IH _ _ Hin).
Qed.

(** X22: wherever the intake form navigates, the shell shows the career
    navigation there with the Dashboard entry, and only it, marked
    current. *)
Theorem modal_navigates_to_the_dashboard
    (w : LandingModal.World) (evs : list LandingModal.UIEvent) (url : string) :
  In (LandingModal.SetLocationHref url) (snd (LandingModal.run w evs)) ->
  App.isCareer url = true /\
  List.filter Navbar.isCurrent (App.navigation url) =
  [Navbar.mkItem "Dashboard" "/career" (Some true)].
Proof.
  intros Hin. rewrite (run_navigation_target evs w url Hin). split; reflexivity.
Qed.

Lemma modal_navigates_to_the_dashboard_witness :
  App.isCareer "/career" = true /\
  List.filter Navbar.isCurrent (App.navigation "/career") =
  [Navbar.mkItem "Dashboard" "/career" (Some true)].
Proof.
  apply (modal_navigates_to_the_dashboard LandingModal.opened
           (LandingModal.fill_radiant ++
            [LandingModal.Submit;
             LandingModal.Settles
               (LandingModal.Responded true (Some LandingModal.placement));
             LandingModal.ToastOK])).
  vm_compute. right. right. right. right. left. reflexivity.
Defined.

Lemma career_dispatch_inbox (st : Career.State) (ev : Career.Event) :
  (forall e, st = Some e -> In e Career.fakeInbox) ->
  forall e, Career.dispatch st ev = Some e -> In e Career.fakeInbox.
Proof.
  intros Hst e. destruct ev as [i |]; cbn [Career.dispatch].
  - destruct st as [e0 |]; [apply Hst |].
    destruct (List.nth_error Career.fakeInbox i) as [email |] eqn:Hi;
      [| discriminate].
    intros [= <-]. now apply List.nth_error_In in Hi.
  - destruct st; discriminate.
Qed.

(** X23: whatever is clicked on the dashboard, the open email is always an
    entry of the inbox; with no email open, a click on the [i]-th entry
    opens exactly that entry; and a click on an entry that does not exist
    opens nothing and changes nothing, wherever in a sequence it occurs. *)
Theorem open_email_is_from_inbox :
  (forall (evs : list Career.Event) (e : Career.Email),
      Career.run Career.initial evs = Some e -> In e Career.fakeInbox) /\
  (forall i : nat,
      Career.dispatch None (Career.ClickEmail i) =
      List.nth_error Career.fakeInbox i) /\
  (forall (st : Career.State) (before after : list Career.Event) (i : nat),
      (List.length Career.fakeInbox <= i)%nat ->
      Career.run st (before ++ Career.ClickEmail i :: after) =
      Career.run st (before ++ after)).
Proof.
  split; [| split].
  - intros evs. unfold Career.run.
    assert (Hgen : forall st,
               (forall e0, st = Some e0 -> In e0 Career.fakeInbox) ->
               forall e0, List.fold_left Career.dispatch evs st = Some e0 ->
                          In e0 Career.fakeInbox).
    { induction evs as [| ev evs IH]; intros st Hst e0; cbn [List.fold_left].
      - apply Hst.
      - apply IH. intros e1. now apply career_dispatch_inbox. }
    apply Hgen. discriminate.
  - intros i. cbn [Career.dispatch].
    now destruct (List.nth_error Career.fakeInbox i).
  - intros st before after i Hi. unfold Career.run.
    rewrite !List.fold_left_app. cbn [List.fold_left]. f_equal.
    apply List.nth_error_None in Hi. cbn [Career.dispatch]. rewrite Hi.
    now destruct (List.fold_left Career.dispatch before st).
Qed.

Lemma open_email_is_from_inbox_witness :
  In (Career.mkEmail 3 "Scrim Schedule" "Coach"
        "Please see the attached scrim schedule for next week..."
        "Your scrim schedule for next week is attached. Be prepared and on time!")
     Career.fakeInbox /\
  Career.run Career.initial [Career.ClickEmail 7; Career.ClickEmail 2] =
  Career.run Career.initial [Career.ClickEmail 2].
Proof.
  destruct open_email_is_from_inbox as (Hin & _ & Hmiss).
  split.
  - apply (Hin [Career.ClickEmail 7; Career.ClickEmail 2; Career.ClickEmail 0]).
    reflexivity.
  - apply (Hmiss Career.initial [] [Career.ClickEmail 2] 7%nat).
    cbn. lia.
Defined.

(** X24: while an email is open, clicks on inbox entries do not replace it:
    it stays open until Close is clicked. *)
Theorem open_email_stays_until_closed
    (e : Career.Email) (evs : list Career.Event) :
  List.forallb (fun ev => negb (Career.isClose ev)) evs = true ->
  Career.run (Some e) evs = Some e.
Proof.
  unfold Career.run. induction evs as [| ev evs IH]; intros Hno;
    cbn [List.fold_left]; [reflexivity |].
  cbn [List.forallb] in Hno. apply andb_true_iff in Hno as [Hev Hno].
  destruct ev; [| discriminate Hev]. cbn [Career.dispatch]. now apply IH.
Qed.

Lemma open_email_stays_until_closed_witness :
  Career.run (List.nth_error Career.fakeInbox 0)
             [Career.ClickEmail 1; Career.ClickEmail 2]
  = List.nth_error Career.fakeInbox 0.
Proof.
  apply (open_email_stays_until_closed _ [Career.ClickEmail 1; Career.ClickEmail 2]).
  reflexivity.
Defined.

End NavigationProperties.
